(** * IRIV IO Controller: cooperative polling and status aggregation

    A shallow embedding of the firmware glue of the IRIV IO Controller
    (lib/rs485_sensor.py, lib/web_status.py, lib/main.py) together with
    the properties its specification states about it.

    Python floats are IEEE-754 binary64 and are embedded as Rocq's
    primitive floats; Python integers are unbounded and embedded as [Z];
    a call that may raise returns a [result]. *)

From stdpp Require Import base option list gmap.
From Stdlib Require Import ZArith Lia Bool List Ascii String DecimalString.
From Stdlib Require Import Floats.PrimFloat Floats.SpecFloat Floats.FloatOps.
Import ListNotations.

Set Default Proof Using "Type".
Set Warnings "-inexact-float".
Local Open Scope string_scope.
Local Open Scope list_scope.
Local Open Scope Z_scope.

(** ** Python values and builtins used by the firmware *)

Module Py.

(** The exception classes that occur.  [KeyboardInterrupt] derives from
    BaseException only, so a handler written [except Exception] lets it
    through. *)
Inductive exn : Set :=
  | IndexError | OverflowError | ValueError | TypeError
  | AttributeError | KeyError | OSError | StructError
  | KeyboardInterrupt.

Definition is_Exception (e : exn) : bool :=
  match e with
  | KeyboardInterrupt => false
  | _ => true
  end.

Inductive result (A : Type) : Type :=
  | Ok (a : A)
  | Raise (e : exn).
Arguments Ok {A} a.
Arguments Raise {A} e.

Definition rbind {A B} (r : result A) (k : A -> result B) : result B :=
  match r with
  | Ok a => k a
  | Raise e => Raise e
  end.

Definition succeeded {A} (r : result A) : bool :=
  match r with Ok _ => true | Raise _ => false end.

(** [interrupted r] holds when [r] is an exception that passes through
    [except Exception]. *)
Definition interrupted {A} (r : result A) : bool :=
  match r with Ok _ => false | Raise e => negb (is_Exception e) end.

(** [raised r] holds when [r] is an exception that [except Exception]
    catches. *)
Definition raised {A} (r : result A) : bool :=
  match r with Ok _ => false | Raise e => is_Exception e end.

(** [vals[i]] on a tuple. *)
Definition index (vals : list Z) (i : nat) : result Z :=
  match nth_error vals i with
  | Some v => Ok v
  | None => Raise IndexError
  end.

(** [float(n)] for an integer [n], as in [n * scale]: rounding to nearest
    even, OverflowError beyond the binary64 range. *)
Definition float_of_int (z : Z) : result float :=
  let f := SF2Prim (binary_normalize prec emax z 0 false) in
  if is_infinity f then Raise OverflowError else Ok f.

(** [int(f)] for a float [f]: truncation toward zero. *)
Definition int_of_float (f : float) : result Z :=
  match Prim2SF f with
  | S754_zero _ => Ok 0
  | S754_infinity _ => Raise OverflowError
  | S754_nan => Raise ValueError
  | S754_finite s m e =>
      let a := if (0 <=? e)%Z then Z.shiftl (Z.pos m) e
               else Z.shiftr (Z.pos m) (- e) in
      Ok (if s then - a else a)
  end.

(** Truth value of a float: [if f] is false exactly for zero. *)
Definition float_truthy (f : float) : bool := negb (PrimFloat.eqb f 0).

(** [struct.pack('!I', x)]: four bytes, most significant first. *)
Definition struct_pack_I (x : Z) : result (list Z) :=
  if ((0 <=? x) && (x <? 2 ^ 32))%Z then
    Ok [Z.land (Z.shiftr x 24) 255; Z.land (Z.shiftr x 16) 255;
        Z.land (Z.shiftr x 8) 255; Z.land x 255]
  else Raise StructError.

(** The binary32 value with bit pattern [b], as a binary64 float (the
    conversion is exact). *)
Definition float_of_bits32 (b : Z) : float :=
  let s := Z.testbit b 31 in
  let e := Z.land (Z.shiftr b 23) 255 in
  let m := Z.land b 8388607 in
  if (e =? 255)%Z then
    if (m =? 0)%Z then (if s then neg_infinity else infinity) else nan
  else if (e =? 0)%Z then
    match m with
    | Z.pos p => SF2Prim (S754_finite s p (-149)%Z)
    | _ => SF2Prim (S754_zero s)
    end
  else
    match (m + 8388608)%Z with
    | Z.pos p => SF2Prim (S754_finite s p (e - 150)%Z)
    | _ => nan
    end.

(** [struct.unpack('!f', bytes)[0]]. *)
Definition struct_unpack_f (bs : list Z) : result float :=
  match bs with
  | [b3; b2; b1; b0] =>
      Ok (float_of_bits32
            (Z.lor (Z.shiftl b3 24)
               (Z.lor (Z.shiftl b2 16) (Z.lor (Z.shiftl b1 8) b0))))
  | _ => Raise StructError
  end.

(** [str.strip], [str.lower], [str.upper], [str.startswith].  A
    character is a code point below 256.  [is_space] is [str.isspace] on
    these: the ASCII white space 9-13 and 28-32, next line (133) and the
    no-break space (160). *)
Definition is_space (c : ascii) : bool :=
  let n := N_of_ascii c in
  ((9 <=? n) && (n <=? 13) || (28 <=? n) && (n <=? 32) ||
   (n =? 133) || (n =? 160))%N.

Fixpoint lstrip (s : string) : string :=
  match s with
  | String c s' => if is_space c then lstrip s' else s
  | EmptyString => EmptyString
  end.

Fixpoint rstrip (s : string) : string :=
  match s with
  | String c s' =>
      match rstrip s' with
      | EmptyString => if is_space c then EmptyString else String c EmptyString
      | t => String c t
      end
  | EmptyString => EmptyString
  end.

Definition strip (s : string) : string := rstrip (lstrip s).

(** The capital letters are 65-90 and 192-222 without the
    multiplication sign (215); the small letter is 32 further on. *)
Definition lower_char (c : ascii) : ascii :=
  let n := N_of_ascii c in
  if ((65 <=? n) && (n <=? 90) ||
      (192 <=? n) && (n <=? 222) && negb (n =? 215))%N
  then ascii_of_N (n + 32) else c.

(** The small letters with a capital below 256 are 97-122 and 224-254
    without the division sign (247).  The upper case of 181, 223 and 255
    is no single code point below 256 (code points 924 and 376, and the
    two letters SS); they are left as they are.  The sources cannot tell
    the difference: they only compare the result of [upper()] with
    SN_HUTE and with HREG, and a text with one of the three equals
    neither, here as in Python. *)
Definition upper_char (c : ascii) : ascii :=
  let n := N_of_ascii c in
  if ((97 <=? n) && (n <=? 122) ||
      (224 <=? n) && (n <=? 254) && negb (n =? 247))%N
  then ascii_of_N (n - 32) else c.

Fixpoint map_string (f : ascii -> ascii) (s : string) : string :=
  match s with
  | String c s' => String (f c) (map_string f s')
  | EmptyString => EmptyString
  end.

Definition lower : string -> string := map_string lower_char.
Definition upper : string -> string := map_string upper_char.
Definition startswith (s p : string) : bool := String.prefix p s.

(** [os.getenv(name) or default]: None and the empty string are falsy. *)
Definition or_default (v : option string) (d : string) : string :=
  match v with
  | Some s => if String.eqb s "" then d else s
  | None => d
  end.

(** [str(n)] and the format field [{:02d}]. *)
Definition str_of_int (n : Z) : string := NilZero.string_of_int (Z.to_int n).

Definition fmt_02d (n : Z) : string :=
  let s := str_of_int n in
  if (String.length s <? 2)%nat then String.append "0" s else s.

(** [try: x = e except Exception: x = None] for one read [e]. *)
Definition attempt {A} (r : result A) : result (option A) :=
  match r with
  | Ok a => Ok (Some a)
  | Raise e => if is_Exception e then Ok None else Raise e
  end.

(** JSON-like documents: the dicts the status functions build. *)
#[local] Unset Elimination Schemes.
Inductive value : Type :=
  | VNone
  | VBool (b : bool)
  | VInt (z : Z)
  | VFloat (f : float)
  | VStr (s : string)
  | VDict (items : list (string * value)).
#[local] Set Elimination Schemes.

Fixpoint assoc (k : string) (items : list (string * value)) : option value :=
  match items with
  | [] => None
  | (k', v) :: rest => if String.eqb k k' then Some v else assoc k rest
  end.

(** [d[k]] / [d.get(k)] on a document. *)
Definition get (k : string) (d : value) : option value :=
  match d with
  | VDict items => assoc k items
  | _ => None
  end.

(** The document [d] with the entry at [path] replaced by [v]. *)
Fixpoint update (path : list string) (v : value) (d : value) : value :=
  match path with
  | [] => v
  | k :: rest =>
      match d with
      | VDict items =>
          VDict (map (fun kv => if String.eqb k (fst kv)
                                then (fst kv, update rest v (snd kv))
                                else kv) items)
      | other => other
      end
  end.

(** The entry of [d] at [path], if any. *)
Fixpoint get_path (path : list string) (d : value) : option value :=
  match path with
  | [] => Some d
  | k :: rest =>
      match get k d with
      | Some x => get_path rest x
      | None => None
      end
  end.

Definition keys (d : value) : list string :=
  match d with
  | VDict items => map fst items
  | _ => []
  end.

End Py.
Import Py.

Notation "'let*' x ':=' r 'in' k" := (rbind r (fun x => k))
  (at level 10, x name, r at level 100, k at level 200).

(** ** lib/rs485_sensor.py: the RS485 sensor poller *)

Module RS485.

(** *** The register decoder *)

Definition _decode_vals (vals : list Z) (fmt : string) (signed : bool)
    (scale : float) : result (Z * float) :=
  if String.eqb fmt "int16" then
    let* raw := index vals 0 in
    let* f := float_of_int raw in
    Ok (raw, (f * scale)%float)
  else if String.eqb fmt "uint16" then
    let* v := index vals 0 in
    let raw := Z.land v 0xFFFF in
    let* f := float_of_int raw in
    Ok (raw, (f * scale)%float)
  else if String.eqb fmt "float32" then
    let* v0 := index vals 0 in
    let msw := Z.land v0 0xFFFF in
    let* v1 := index vals 1 in
    let lsw := Z.land v1 0xFFFF in
    let bin32 := Z.lor (Z.shiftl msw 16) lsw in
    let* packed := struct_pack_I bin32 in
    let* f := struct_unpack_f packed in
    Ok (bin32, (f * scale)%float)
  else if String.eqb fmt "float32_swapped" then
    let* v0 := index vals 0 in
    let lsw := Z.land v0 0xFFFF in
    let* v1 := index vals 1 in
    let msw := Z.land v1 0xFFFF in
    let bin32 := Z.lor (Z.shiftl msw 16) lsw in
    let* packed := struct_pack_I bin32 in
    let* f := struct_unpack_f packed in
    Ok (bin32, (f * scale)%float)
  else
    let* raw := index vals 0 in
    let* f := float_of_int raw in
    Ok (raw, (f * scale)%float).

(** The register quantity [_init] derives from a format:
    [2 if _format.startswith("float32") else 1]. *)
Definition format_qty (fmt : string) : nat :=
  if startswith fmt "float32" then 2%nat else 1%nat.

(** A register word as the transport delivers it: an unsigned 16-bit
    value, or its signed reading when the read asked for one. *)
Definition word16 (w : Z) : Prop := -32768 <= w <= 65535.


(** *** Module state

    The module-level globals of rs485_sensor.py, one field per global.
    [_serial] is None until the transport has been constructed. *)

Record Serial : Type := { baudrate : Z }.

Record State : Type := mkState {
  _enabled : bool;
  _serial : option Serial;
  _slave_addr : Z;
  _reg_addr : Z;
  _use_input_regs : bool;
  _signed : bool;
  _scale : float;
  _format : string;
  _qty : Z;
  _hum_enable : bool;
  _hum_reg : Z;
  _hum_signed : bool;
  _hum_scale : float;
  _hum_format : string;
  _hum_qty : Z;
  _poll_s : float;
  _last_value : option float;
  _last_raw : option Z;
  _last_ok : bool;
  _last_ts : float;
  _next_poll : float;
  _err_count : Z;
  _last_hum : option float;
  _last_hum_raw : option Z;
  _last_hum_ok : bool }.

Definition initial : State :=
  {| _enabled := false; _serial := None; _slave_addr := 1; _reg_addr := 0;
     _use_input_regs := true; _signed := false; _scale := 0.1;
     _format := "int16"; _qty := 1;
     _hum_enable := false; _hum_reg := 1; _hum_signed := false;
     _hum_scale := 0.1; _hum_format := "int16"; _hum_qty := 1;
     _poll_s := 2;
     _last_value := None; _last_raw := None; _last_ok := false;
     _last_ts := 0; _next_poll := 0; _err_count := 0;
     _last_hum := None; _last_hum_raw := None; _last_hum_ok := false |}.

(** Assignment to one global. *)
Definition set_enabled (v : bool) (s : State) : State :=
  mkState v (_serial s) (_slave_addr s) (_reg_addr s) (_use_input_regs s)
    (_signed s) (_scale s) (_format s) (_qty s) (_hum_enable s) (_hum_reg s)
    (_hum_signed s) (_hum_scale s) (_hum_format s) (_hum_qty s) (_poll_s s)
    (_last_value s) (_last_raw s) (_last_ok s) (_last_ts s) (_next_poll s)
    (_err_count s) (_last_hum s) (_last_hum_raw s) (_last_hum_ok s).
Definition set_serial (v : option Serial) (s : State) : State :=
  mkState (_enabled s) v (_slave_addr s) (_reg_addr s) (_use_input_regs s)
    (_signed s) (_scale s) (_format s) (_qty s) (_hum_enable s) (_hum_reg s)
    (_hum_signed s) (_hum_scale s) (_hum_format s) (_hum_qty s) (_poll_s s)
    (_last_value s) (_last_raw s) (_last_ok s) (_last_ts s) (_next_poll s)
    (_err_count s) (_last_hum s) (_last_hum_raw s) (_last_hum_ok s).
Definition set_slave_addr (v : Z) (s : State) : State :=
  mkState (_enabled s) (_serial s) v (_reg_addr s) (_use_input_regs s)
    (_signed s) (_scale s) (_format s) (_qty s) (_hum_enable s) (_hum_reg s)
    (_hum_signed s) (_hum_scale s) (_hum_format s) (_hum_qty s) (_poll_s s)
    (_last_value s) (_last_raw s) (_last_ok s) (_last_ts s) (_next_poll s)
    (_err_count s) (_last_hum s) (_last_hum_raw s) (_last_hum_ok s).
Definition set_reg_addr (v : Z) (s : State) : State :=
  mkState (_enabled s) (_serial s) (_slave_addr s) v (_use_input_regs s)
    (_signed s) (_scale s) (_format s) (_qty s) (_hum_enable s) (_hum_reg s)
    (_hum_signed s) (_hum_scale s) (_hum_format s) (_hum_qty s) (_poll_s s)
    (_last_value s) (_last_raw s) (_last_ok s) (_last_ts s) (_next_poll s)
    (_err_count s) (_last_hum s) (_last_hum_raw s) (_last_hum_ok s).
Definition set_use_input_regs (v : bool) (s : State) : State :=
  mkState (_enabled s) (_serial s) (_slave_addr s) (_reg_addr s) v (_signed
    s) (_scale s) (_format s) (_qty s) (_hum_enable s) (_hum_reg s)
    (_hum_signed s) (_hum_scale s) (_hum_format s) (_hum_qty s) (_poll_s s)
    (_last_value s) (_last_raw s) (_last_ok s) (_last_ts s) (_next_poll s)
    (_err_count s) (_last_hum s) (_last_hum_raw s) (_last_hum_ok s).
Definition set_signed (v : bool) (s : State) : State :=
  mkState (_enabled s) (_serial s) (_slave_addr s) (_reg_addr s)
    (_use_input_regs s) v (_scale s) (_format s) (_qty s) (_hum_enable s)
    (_hum_reg s) (_hum_signed s) (_hum_scale s) (_hum_format s) (_hum_qty s)
    (_poll_s s) (_last_value s) (_last_raw s) (_last_ok s) (_last_ts s)
    (_next_poll s) (_err_count s) (_last_hum s) (_last_hum_raw s)
    (_last_hum_ok s).
Definition set_scale (v : float) (s : State) : State :=
  mkState (_enabled s) (_serial s) (_slave_addr s) (_reg_addr s)
    (_use_input_regs s) (_signed s) v (_format s) (_qty s) (_hum_enable s)
    (_hum_reg s) (_hum_signed s) (_hum_scale s) (_hum_format s) (_hum_qty s)
    (_poll_s s) (_last_value s) (_last_raw s) (_last_ok s) (_last_ts s)
    (_next_poll s) (_err_count s) (_last_hum s) (_last_hum_raw s)
    (_last_hum_ok s).
Definition set_format (v : string) (s : State) : State :=
  mkState (_enabled s) (_serial s) (_slave_addr s) (_reg_addr s)
    (_use_input_regs s) (_signed s) (_scale s) v (_qty s) (_hum_enable s)
    (_hum_reg s) (_hum_signed s) (_hum_scale s) (_hum_format s) (_hum_qty s)
    (_poll_s s) (_last_value s) (_last_raw s) (_last_ok s) (_last_ts s)
    (_next_poll s) (_err_count s) (_last_hum s) (_last_hum_raw s)
    (_last_hum_ok s).
Definition set_qty (v : Z) (s : State) : State :=
  mkState (_enabled s) (_serial s) (_slave_addr s) (_reg_addr s)
    (_use_input_regs s) (_signed s) (_scale s) (_format s) v (_hum_enable s)
    (_hum_reg s) (_hum_signed s) (_hum_scale s) (_hum_format s) (_hum_qty s)
    (_poll_s s) (_last_value s) (_last_raw s) (_last_ok s) (_last_ts s)
    (_next_poll s) (_err_count s) (_last_hum s) (_last_hum_raw s)
    (_last_hum_ok s).
Definition set_hum_enable (v : bool) (s : State) : State :=
  mkState (_enabled s) (_serial s) (_slave_addr s) (_reg_addr s)
    (_use_input_regs s) (_signed s) (_scale s) (_format s) (_qty s) v
    (_hum_reg s) (_hum_signed s) (_hum_scale s) (_hum_format s) (_hum_qty s)
    (_poll_s s) (_last_value s) (_last_raw s) (_last_ok s) (_last_ts s)
    (_next_poll s) (_err_count s) (_last_hum s) (_last_hum_raw s)
    (_last_hum_ok s).
Definition set_hum_reg (v : Z) (s : State) : State :=
  mkState (_enabled s) (_serial s) (_slave_addr s) (_reg_addr s)
    (_use_input_regs s) (_signed s) (_scale s) (_format s) (_qty s)
    (_hum_enable s) v (_hum_signed s) (_hum_scale s) (_hum_format s)
    (_hum_qty s) (_poll_s s) (_last_value s) (_last_raw s) (_last_ok s)
    (_last_ts s) (_next_poll s) (_err_count s) (_last_hum s) (_last_hum_raw
    s) (_last_hum_ok s).
Definition set_hum_signed (v : bool) (s : State) : State :=
  mkState (_enabled s) (_serial s) (_slave_addr s) (_reg_addr s)
    (_use_input_regs s) (_signed s) (_scale s) (_format s) (_qty s)
    (_hum_enable s) (_hum_reg s) v (_hum_scale s) (_hum_format s) (_hum_qty
    s) (_poll_s s) (_last_value s) (_last_raw s) (_last_ok s) (_last_ts s)
    (_next_poll s) (_err_count s) (_last_hum s) (_last_hum_raw s)
    (_last_hum_ok s).
Definition set_hum_scale (v : float) (s : State) : State :=
  mkState (_enabled s) (_serial s) (_slave_addr s) (_reg_addr s)
    (_use_input_regs s) (_signed s) (_scale s) (_format s) (_qty s)
    (_hum_enable s) (_hum_reg s) (_hum_signed s) v (_hum_format s) (_hum_qty
    s) (_poll_s s) (_last_value s) (_last_raw s) (_last_ok s) (_last_ts s)
    (_next_poll s) (_err_count s) (_last_hum s) (_last_hum_raw s)
    (_last_hum_ok s).
Definition set_hum_format (v : string) (s : State) : State :=
  mkState (_enabled s) (_serial s) (_slave_addr s) (_reg_addr s)
    (_use_input_regs s) (_signed s) (_scale s) (_format s) (_qty s)
    (_hum_enable s) (_hum_reg s) (_hum_signed s) (_hum_scale s) v (_hum_qty
    s) (_poll_s s) (_last_value s) (_last_raw s) (_last_ok s) (_last_ts s)
    (_next_poll s) (_err_count s) (_last_hum s) (_last_hum_raw s)
    (_last_hum_ok s).
Definition set_hum_qty (v : Z) (s : State) : State :=
  mkState (_enabled s) (_serial s) (_slave_addr s) (_reg_addr s)
    (_use_input_regs s) (_signed s) (_scale s) (_format s) (_qty s)
    (_hum_enable s) (_hum_reg s) (_hum_signed s) (_hum_scale s) (_hum_format
    s) v (_poll_s s) (_last_value s) (_last_raw s) (_last_ok s) (_last_ts s)
    (_next_poll s) (_err_count s) (_last_hum s) (_last_hum_raw s)
    (_last_hum_ok s).
Definition set_poll_s (v : float) (s : State) : State :=
  mkState (_enabled s) (_serial s) (_slave_addr s) (_reg_addr s)
    (_use_input_regs s) (_signed s) (_scale s) (_format s) (_qty s)
    (_hum_enable s) (_hum_reg s) (_hum_signed s) (_hum_scale s) (_hum_format
    s) (_hum_qty s) v (_last_value s) (_last_raw s) (_last_ok s) (_last_ts
    s) (_next_poll s) (_err_count s) (_last_hum s) (_last_hum_raw s)
    (_last_hum_ok s).
Definition set_last_value (v : option float) (s : State) : State :=
  mkState (_enabled s) (_serial s) (_slave_addr s) (_reg_addr s)
    (_use_input_regs s) (_signed s) (_scale s) (_format s) (_qty s)
    (_hum_enable s) (_hum_reg s) (_hum_signed s) (_hum_scale s) (_hum_format
    s) (_hum_qty s) (_poll_s s) v (_last_raw s) (_last_ok s) (_last_ts s)
    (_next_poll s) (_err_count s) (_last_hum s) (_last_hum_raw s)
    (_last_hum_ok s).
Definition set_last_raw (v : option Z) (s : State) : State :=
  mkState (_enabled s) (_serial s) (_slave_addr s) (_reg_addr s)
    (_use_input_regs s) (_signed s) (_scale s) (_format s) (_qty s)
    (_hum_enable s) (_hum_reg s) (_hum_signed s) (_hum_scale s) (_hum_format
    s) (_hum_qty s) (_poll_s s) (_last_value s) v (_last_ok s) (_last_ts s)
    (_next_poll s) (_err_count s) (_last_hum s) (_last_hum_raw s)
    (_last_hum_ok s).
Definition set_last_ok (v : bool) (s : State) : State :=
  mkState (_enabled s) (_serial s) (_slave_addr s) (_reg_addr s)
    (_use_input_regs s) (_signed s) (_scale s) (_format s) (_qty s)
    (_hum_enable s) (_hum_reg s) (_hum_signed s) (_hum_scale s) (_hum_format
    s) (_hum_qty s) (_poll_s s) (_last_value s) (_last_raw s) v (_last_ts s)
    (_next_poll s) (_err_count s) (_last_hum s) (_last_hum_raw s)
    (_last_hum_ok s).
Definition set_last_ts (v : float) (s : State) : State :=
  mkState (_enabled s) (_serial s) (_slave_addr s) (_reg_addr s)
    (_use_input_regs s) (_signed s) (_scale s) (_format s) (_qty s)
    (_hum_enable s) (_hum_reg s) (_hum_signed s) (_hum_scale s) (_hum_format
    s) (_hum_qty s) (_poll_s s) (_last_value s) (_last_raw s) (_last_ok s) v
    (_next_poll s) (_err_count s) (_last_hum s) (_last_hum_raw s)
    (_last_hum_ok s).
Definition set_next_poll (v : float) (s : State) : State :=
  mkState (_enabled s) (_serial s) (_slave_addr s) (_reg_addr s)
    (_use_input_regs s) (_signed s) (_scale s) (_format s) (_qty s)
    (_hum_enable s) (_hum_reg s) (_hum_signed s) (_hum_scale s) (_hum_format
    s) (_hum_qty s) (_poll_s s) (_last_value s) (_last_raw s) (_last_ok s)
    (_last_ts s) v (_err_count s) (_last_hum s) (_last_hum_raw s)
    (_last_hum_ok s).
Definition set_err_count (v : Z) (s : State) : State :=
  mkState (_enabled s) (_serial s) (_slave_addr s) (_reg_addr s)
    (_use_input_regs s) (_signed s) (_scale s) (_format s) (_qty s)
    (_hum_enable s) (_hum_reg s) (_hum_signed s) (_hum_scale s) (_hum_format
    s) (_hum_qty s) (_poll_s s) (_last_value s) (_last_raw s) (_last_ok s)
    (_last_ts s) (_next_poll s) v (_last_hum s) (_last_hum_raw s)
    (_last_hum_ok s).
Definition set_last_hum (v : option float) (s : State) : State :=
  mkState (_enabled s) (_serial s) (_slave_addr s) (_reg_addr s)
    (_use_input_regs s) (_signed s) (_scale s) (_format s) (_qty s)
    (_hum_enable s) (_hum_reg s) (_hum_signed s) (_hum_scale s) (_hum_format
    s) (_hum_qty s) (_poll_s s) (_last_value s) (_last_raw s) (_last_ok s)
    (_last_ts s) (_next_poll s) (_err_count s) v (_last_hum_raw s)
    (_last_hum_ok s).
Definition set_last_hum_raw (v : option Z) (s : State) : State :=
  mkState (_enabled s) (_serial s) (_slave_addr s) (_reg_addr s)
    (_use_input_regs s) (_signed s) (_scale s) (_format s) (_qty s)
    (_hum_enable s) (_hum_reg s) (_hum_signed s) (_hum_scale s) (_hum_format
    s) (_hum_qty s) (_poll_s s) (_last_value s) (_last_raw s) (_last_ok s)
    (_last_ts s) (_next_poll s) (_err_count s) (_last_hum s) v (_last_hum_ok
    s).
Definition set_last_hum_ok (v : bool) (s : State) : State :=
  mkState (_enabled s) (_serial s) (_slave_addr s) (_reg_addr s)
    (_use_input_regs s) (_signed s) (_scale s) (_format s) (_qty s)
    (_hum_enable s) (_hum_reg s) (_hum_signed s) (_hum_scale s) (_hum_format
    s) (_hum_qty s) (_poll_s s) (_last_value s) (_last_raw s) (_last_ok s)
    (_last_ts s) (_next_poll s) (_err_count s) (_last_hum s) (_last_hum_raw
    s) v.


(** *** Configuration and collaborators

    A numeric setting is what [int(os.getenv(name) or default)] or
    [float(...)] sees: absent or empty (the default is used), text the
    conversion rejects (it raises ValueError), or a number. *)

Inductive setting (A : Type) : Type :=
  | Unset
  | Malformed
  | Given (a : A).
Arguments Unset {A}.
Arguments Malformed {A}.
Arguments Given {A} a.

Definition convert {A} (v : setting A) (default : A) : result A :=
  match v with
  | Unset => Ok default
  | Malformed => Raise ValueError
  | Given a => Ok a
  end.

Record Env : Type := {
  MODBUS_MODE : option string;
  RS485_SENSOR_ENABLE : option string;
  RS485_SENSOR_PROFILE : option string;
  RS485_SENSOR_ADDR : setting Z;
  RS485_SENSOR_REG : setting Z;
  RS485_SENSOR_FUNC : option string;
  RS485_SENSOR_SIGNED : option string;
  RS485_SENSOR_FORMAT : option string;
  RS485_SENSOR_QTY : setting Z;
  RS485_SENSOR_SCALE : setting float;
  RS485_SENSOR_HUM_ENABLE : option string;
  RS485_SENSOR_HUM_REG : setting Z;
  RS485_SENSOR_HUM_SIGNED : option string;
  RS485_SENSOR_HUM_FORMAT : option string;
  RS485_SENSOR_HUM_QTY : setting Z;
  RS485_SENSOR_HUM_SCALE : setting float;
  RS485_SENSOR_POLL_SEC : setting float;
  RS485_SENSOR_BAUD : setting Z;
  MODBUS_RTU_BAUDRATE : setting Z }.

(** What one call of [process] meets outside the module: the settings,
    the reading of [time.monotonic()], whether [Serial(...)] can be
    constructed, and what the bus answers to the primary and to the
    humidity read ([Raise] when the read raises). *)
Record World : Type := {
  env : Env;
  monotonic : float;
  serial_ctor : result unit;
  primary_response : result (list Z);
  humidity_response : result (list Z) }.

(** What a call does to the transport. *)
Inductive event : Type :=
  | SerialOpen (baud : Z)
  | ReadRegisters (input_regs : bool) (slave_addr starting_addr register_qty : Z)
      (signed : bool).

(** *** Statements over the globals

    A statement runs on the globals and the log of transport events, and
    either completes with a value or raises. *)

Record Machine : Type := { globals : State; trace : list event }.

Definition M (A : Type) : Type := Machine -> Machine * result A.

Definition ret {A} (a : A) : M A := fun m => (m, Ok a).
Definition raise {A} (e : exn) : M A := fun m => (m, Raise e).
Definition lift {A} (r : result A) : M A := fun m => (m, r).

Definition bind {A B} (c : M A) (k : A -> M B) : M B :=
  fun m =>
    match c m with
    | (m', Ok a) => k a m'
    | (m', Raise e) => (m', Raise e)
    end.

Definition read {A} (f : State -> A) : M A := fun m => (m, Ok (f (globals m))).

Definition assign (f : State -> State) : M unit :=
  fun m => ({| globals := f (globals m); trace := trace m |}, Ok tt).

Definition emit (e : event) : M unit :=
  fun m => ({| globals := globals m; trace := trace m ++ [e] |}, Ok tt).

(** [try: body except Exception: handler]. *)
Definition try_except (body handler : M unit) : M unit :=
  fun m =>
    match body m with
    | (m', Raise e) => if is_Exception e then handler m' else (m', Raise e)
    | done => done
    end.

(** [try: x = e except Exception: x = fallback] for a conversion [e]. *)
Definition or_else {A} (r : result A) (fallback : A) : M A :=
  match r with
  | Ok a => ret a
  | Raise e => if is_Exception e then ret fallback else raise e
  end.

Notation "'do' x <- c ; k" := (bind c (fun x => k))
  (at level 10, x name, c at level 100, k at level 200).
Notation "c ;; k" := (bind c (fun _ => k))
  (at level 100, k at level 200, right associativity).

Definition run {A} (c : M A) (s : State) : Machine * result A :=
  c {| globals := s; trace := [] |}.

(** *** _parse_bool *)

Definition str_of (v : option string) : string :=
  match v with
  | Some s => s
  | None => "None"
  end.

Definition _parse_bool (v : option string) (default : bool) : bool :=
  let s := lower (strip (str_of v)) in
  if existsb (String.eqb s) ["1"; "true"; "yes"; "on"]%string then true
  else if existsb (String.eqb s) ["0"; "false"; "no"; "off"]%string then false
  else default.

(** *** _init *)

Definition is_not (v : option string) (s : string) : bool :=
  match v with
  | Some t => negb (String.eqb t s)
  | None => true
  end.

Definition _init (w : World) : M unit :=
  let e := env w in
  try_except
    (if is_not (MODBUS_MODE e) "TCP" then assign (set_enabled false)
     else if negb (_parse_bool (RS485_SENSOR_ENABLE e) false) then
       assign (set_enabled false)
     else
       assign (set_enabled true) ;;
       let profile := upper (strip (or_default (RS485_SENSOR_PROFILE e) "GENERIC")) in
       let sn_hute := String.eqb profile "SN_HUTE" in
       let d_func : string := if sn_hute then "HREG" else "IREG" in
       let d_reg : Z := if sn_hute then 1 else 0 in
       let d_scale : float := 0.1%float in
       let d_fmt : string := "int16" in
       let d_qty : Z := 1 in
       let d_h_en : bool := sn_hute in
       let d_h_reg : Z := if sn_hute then 2 else 1 in
       let d_h_scale : float := 0.1%float in
       let d_h_fmt : string := "int16" in
       let d_h_qty : Z := 1 in
       do addr <- lift (convert (RS485_SENSOR_ADDR e) 1);
       assign (set_slave_addr addr) ;;
       do reg <- lift (convert (RS485_SENSOR_REG e) d_reg);
       assign (set_reg_addr reg) ;;
       let func := upper (strip (or_default (RS485_SENSOR_FUNC e) d_func)) in
       assign (set_use_input_regs (negb (String.eqb func "HREG"))) ;;
       assign (set_signed (_parse_bool (RS485_SENSOR_SIGNED e) false)) ;;
       let fmt := lower (strip (or_default (RS485_SENSOR_FORMAT e) d_fmt)) in
       assign (set_format fmt) ;;
       do qty <- or_else
                   (convert (RS485_SENSOR_QTY e)
                      (if startswith fmt "float32" then 2 else d_qty)) 1;
       assign (set_qty qty) ;;
       do scale <- or_else (convert (RS485_SENSOR_SCALE e) d_scale) 0.1%float;
       assign (set_scale scale) ;;
       let hum := _parse_bool (RS485_SENSOR_HUM_ENABLE e) d_h_en in
       assign (set_hum_enable hum) ;;
       (if hum then
          do hreg <- lift (convert (RS485_SENSOR_HUM_REG e) d_h_reg);
          assign (set_hum_reg hreg) ;;
          assign (set_hum_signed (_parse_bool (RS485_SENSOR_HUM_SIGNED e) false)) ;;
          let hfmt := lower (strip (or_default (RS485_SENSOR_HUM_FORMAT e) d_h_fmt)) in
          assign (set_hum_format hfmt) ;;
          do hqty <- or_else
                       (convert (RS485_SENSOR_HUM_QTY e)
                          (if startswith hfmt "float32" then 2 else d_h_qty)) 1;
          assign (set_hum_qty hqty) ;;
          do hscale <- or_else (convert (RS485_SENSOR_HUM_SCALE e) d_h_scale) 0.1%float;
          assign (set_hum_scale hscale)
        else ret tt) ;;
       (match convert (RS485_SENSOR_POLL_SEC e) 2%float with
        | Ok p =>
            assign (set_poll_s p) ;;
            if (p <? 0.2)%float then assign (set_poll_s 0.2%float) else ret tt
        | Raise x =>
            if is_Exception x then assign (set_poll_s 2%float) else raise x
        end) ;;
       do baud <- lift (match RS485_SENSOR_BAUD e with
                        | Unset => convert (MODBUS_RTU_BAUDRATE e) 9600
                        | other => convert other 9600
                        end);
       emit (SerialOpen baud) ;;
       lift (serial_ctor w) ;;
       assign (set_serial (Some {| baudrate := baud |})) ;;
       assign (set_next_poll (monotonic w)))
    (assign (set_serial None)).

(** *** process *)

(** [_serial.read_input_registers(...)] or [_serial.read_holding_registers(...)]
    by [_use_input_regs]; a method call on None raises AttributeError
    before anything reaches the bus. *)
Definition read_registers (response : result (list Z))
    (starting_addr register_qty : Z) (signed : bool) : M (list Z) :=
  do input_regs <- read _use_input_regs;
  do serial <- read _serial;
  do slave <- read _slave_addr;
  match serial with
  | None => raise AttributeError
  | Some _ =>
      emit (ReadRegisters input_regs slave starting_addr register_qty signed) ;;
      lift response
  end.

Definition poll_primary (w : World) (now : float) : M unit :=
  try_except
    (do reg <- read _reg_addr;
     do qty <- read _qty;
     do signed <- read _signed;
     do vals <- read_registers (primary_response w) reg qty signed;
     do fmt <- read _format;
     do scale <- read _scale;
     do rv <- lift (_decode_vals vals fmt signed scale);
     assign (set_last_raw (Some (fst rv))) ;;
     assign (set_last_value (Some (snd rv))) ;;
     assign (set_last_ok true) ;;
     assign (set_last_ts now))
    (do n <- read _err_count;
     assign (set_err_count (n + 1)) ;;
     assign (set_last_ok false)).

Definition poll_humidity (w : World) : M unit :=
  do enabled <- read _hum_enable;
  if enabled then
    try_except
      (do reg <- read _hum_reg;
       do qty <- read _hum_qty;
       do signed <- read _hum_signed;
       do hvals <- read_registers (humidity_response w) reg qty signed;
       do fmt <- read _hum_format;
       do scale <- read _hum_scale;
       do rv <- lift (_decode_vals hvals fmt signed scale);
       assign (set_last_hum_raw (Some (fst rv))) ;;
       assign (set_last_hum (Some (snd rv))) ;;
       assign (set_last_hum_ok true))
      (assign (set_last_hum_ok false))
  else ret tt.

Definition process (w : World) : M unit :=
  do enabled <- read _enabled;
  if negb enabled then
    do serial <- read _serial;
    match serial with
    | None => _init w
    | Some _ => ret tt
    end
  else
    let now := monotonic w in
    do next <- read _next_poll;
    if (now <? next)%float then ret tt
    else
      do interval <- read _poll_s;
      assign (set_next_poll (now + interval)%float) ;;
      poll_primary w now ;;
      poll_humidity w.

(** What the two [try] blocks of [process] compute before they assign:
    the registers read from the bus and decoded. *)
Definition primary_reading (w : World) (s : State) : result (Z * float) :=
  match _serial s with
  | None => Raise AttributeError
  | Some _ =>
      let* vals := primary_response w in
      _decode_vals vals (_format s) (_signed s) (_scale s)
  end.

Definition humidity_reading (w : World) (s : State) : result (Z * float) :=
  match _serial s with
  | None => Raise AttributeError
  | Some _ =>
      let* hvals := humidity_response w in
      _decode_vals hvals (_hum_format s) (_hum_signed s) (_hum_scale s)
  end.

(** What each block stores for the value of its [try] part. *)
Definition store_primary (now : float) (r : result (Z * float)) (g : State)
    : State :=
  match r with
  | Ok rv =>
      set_last_ts now
        (set_last_ok true
           (set_last_value (Some (snd rv)) (set_last_raw (Some (fst rv)) g)))
  | Raise _ => set_last_ok false (set_err_count (_err_count g + 1) g)
  end.

Definition store_humidity (r : result (Z * float)) (g : State) : State :=
  match r with
  | Ok rv =>
      set_last_hum_ok true
        (set_last_hum (Some (snd rv)) (set_last_hum_raw (Some (fst rv)) g))
  | Raise _ => set_last_hum_ok false g
  end.

(** The read request a [try] block puts on the bus. *)
Definition request (s : State) (starting_addr register_qty : Z) (signed : bool)
    : list event :=
  match _serial s with
  | None => []
  | Some _ =>
      [ReadRegisters (_use_input_regs s) (_slave_addr s) starting_addr
         register_qty signed]
  end.

(** The same world with another answer of the bus. *)
Definition with_primary (r : result (list Z)) (w : World) : World :=
  {| env := env w; monotonic := monotonic w; serial_ctor := serial_ctor w;
     primary_response := r; humidity_response := humidity_response w |}.

Definition with_humidity (r : result (list Z)) (w : World) : World :=
  {| env := env w; monotonic := monotonic w; serial_ctor := serial_ctor w;
     primary_response := primary_response w; humidity_response := r |}.

(** Whether a call of [process] at the time of [w] finds the poll due. *)
Definition due (w : World) (s : State) : bool :=
  negb (monotonic w <? _next_poll s)%float.

(** The globals after one call of [process] from globals [s], the
    transport events of that call, and how the call ended. *)
Definition step (w : World) (s : State) : State :=
  globals (fst (run (process w) s)).

Definition events (w : World) (s : State) : list event :=
  trace (fst (run (process w) s)).

Definition outcome (w : World) (s : State) : result unit :=
  snd (run (process w) s).

(** Successive calls of [process], one world per call; a call that lets
    an exception escape ends the run. *)
Fixpoint steps (ws : list World) (s : State) : State :=
  match ws with
  | [] => s
  | w :: rest =>
      match outcome w s with
      | Ok _ => steps rest (step w s)
      | Raise _ => step w s
      end
  end.

(** *** get_status *)

Definition of_option {A} (f : A -> value) (v : option A) : value :=
  match v with
  | Some a => f a
  | None => VNone
  end.

Definition get_status (s : State) : result value :=
  let* last_update :=
    (if float_truthy (_last_ts s)
     then let* n := int_of_float (_last_ts s) in Ok (VInt n)
     else Ok VNone) in
  Ok (VDict
        [("enabled", VBool (_enabled s));
         ("ok", VBool (_last_ok s));
         ("value_c", of_option VFloat (_last_value s));
         ("raw", of_option VInt (_last_raw s));
         ("last_update_s", last_update);
         ("errors", VInt (_err_count s));
         ("slave_addr", VInt (_slave_addr s));
         ("reg_addr", VInt (_reg_addr s));
         ("func", VStr (if _use_input_regs s then "IREG" else "HREG"));
         ("scale", VFloat (_scale s));
         ("format", VStr (_format s));
         ("humidity",
          VDict
            [("enabled", VBool (_hum_enable s));
             ("ok", VBool (_last_hum_ok s));
             ("value_pct", of_option VFloat (_last_hum s));
             ("raw", of_option VInt (_last_hum_raw s));
             ("reg_addr", VInt (_hum_reg s));
             ("scale", VFloat (_hum_scale s));
             ("format", VStr (_hum_format s))])]%string).

End RS485.

(** ** lib/web_status.py: status snapshot and output commands *)

Module WebStatus.

(** *** Collaborators

    The hardware abstraction layer (iriv_ioc_hal) and the Modbus module
    (iriv_ioc_modbus) are outside this code; each attribute the status
    code touches is a field here.  A read is a [result]: [Raise] when the
    access raises. *)

Record Hal : Type := {
  din0 : result bool; din1 : result bool; din2 : result bool;
  din3 : result bool; din4 : result bool; din5 : result bool;
  din6 : result bool; din7 : result bool; din8 : result bool;
  din9 : result bool; din10 : result bool;
  (** [countN] is None when the HAL has no such counter, else the
      reading of its [.count] *)
  count1 : option (result Z); count3 : option (result Z);
  count5 : option (result Z); count7 : option (result Z);
  count9 : option (result Z);
  dout0 : result bool; dout1 : result bool;
  dout2 : result bool; dout3 : result bool;
  SUPPLY_VOLTAGE : result Z;
  an_read_voltage_mv : Z -> result Z;
  an_read_current_ua : Z -> result Z }.

Record Eth : Type := {
  pretty_mac : result string;
  pretty_ip : result string;
  link_status : result bool }.

(** Modelled from the spec: the Modbus module's coil table and coil
    addresses (iriv_ioc_modbus and its client are not part of these
    sources).  [coils] is the Modbus-visible coil representation,
    [DOn_ADD] the address mirroring digital output n. *)
Record Modbus : Type := {
  eth : option Eth;
  hostname : option string;
  DO0_ADD : Z; DO1_ADD : Z; DO2_ADD : Z; DO3_ADD : Z;
  coils : gmap Z Z }.

(** Modelled from the spec: [Modbus.client.set_coil(address, value)]
    writes the coil where the address is a registered coil and raises
    otherwise. *)
Definition set_coil (address value : Z) (m : Modbus) : result Modbus :=
  match coils m !! address with
  | Some _ =>
      Ok {| eth := eth m; hostname := hostname m;
            DO0_ADD := DO0_ADD m; DO1_ADD := DO1_ADD m;
            DO2_ADD := DO2_ADD m; DO3_ADD := DO3_ADD m;
            coils := <[address := value]> (coils m) |}
  | None => Raise KeyError
  end.

Record System : Type := {
  hal : Hal;
  modbus : Modbus;
  cpu_temperature : result float;
  monotonic : float;
  sensor : RS485.State }.

(** The same system with one collaborator read replaced. *)
Definition with_hal (h : Hal) (sys : System) : System :=
  {| hal := h; modbus := modbus sys; cpu_temperature := cpu_temperature sys;
     monotonic := monotonic sys; sensor := sensor sys |}.

Definition with_modbus (m : Modbus) (sys : System) : System :=
  {| hal := hal sys; modbus := m; cpu_temperature := cpu_temperature sys;
     monotonic := monotonic sys; sensor := sensor sys |}.

Definition with_cpu_temperature (r : result float) (sys : System) : System :=
  {| hal := hal sys; modbus := modbus sys; cpu_temperature := r;
     monotonic := monotonic sys; sensor := sensor sys |}.

Definition with_eth (e : Eth) (sys : System) : System :=
  with_modbus
    {| eth := Some e; hostname := hostname (modbus sys);
       DO0_ADD := DO0_ADD (modbus sys); DO1_ADD := DO1_ADD (modbus sys);
       DO2_ADD := DO2_ADD (modbus sys); DO3_ADD := DO3_ADD (modbus sys);
       coils := coils (modbus sys) |} sys.

Definition with_supply (r : result Z) (h : Hal) : Hal :=
  {| din0 := din0 h; din1 := din1 h; din2 := din2 h; din3 := din3 h;
     din4 := din4 h; din5 := din5 h; din6 := din6 h; din7 := din7 h;
     din8 := din8 h; din9 := din9 h; din10 := din10 h;
     count1 := count1 h; count3 := count3 h; count5 := count5 h;
     count7 := count7 h; count9 := count9 h;
     dout0 := dout0 h; dout1 := dout1 h; dout2 := dout2 h; dout3 := dout3 h;
     SUPPLY_VOLTAGE := r;
     an_read_voltage_mv := an_read_voltage_mv h;
     an_read_current_ua := an_read_current_ua h |}.

Definition with_din0 (r : result bool) (h : Hal) : Hal :=
  {| din0 := r; din1 := din1 h; din2 := din2 h; din3 := din3 h;
     din4 := din4 h; din5 := din5 h; din6 := din6 h; din7 := din7 h;
     din8 := din8 h; din9 := din9 h; din10 := din10 h;
     count1 := count1 h; count3 := count3 h; count5 := count5 h;
     count7 := count7 h; count9 := count9 h;
     dout0 := dout0 h; dout1 := dout1 h; dout2 := dout2 h; dout3 := dout3 h;
     SUPPLY_VOLTAGE := SUPPLY_VOLTAGE h;
     an_read_voltage_mv := an_read_voltage_mv h;
     an_read_current_ua := an_read_current_ua h |}.

(** An analog read that raises [e] on [channel]. *)
Definition failing_on (channel : Z) (e : exn) (read : Z -> result Z)
    : Z -> result Z :=
  fun ch => if ch =? channel then Raise e else read ch.

Definition with_voltage (read : Z -> result Z) (h : Hal) : Hal :=
  {| din0 := din0 h; din1 := din1 h; din2 := din2 h; din3 := din3 h;
     din4 := din4 h; din5 := din5 h; din6 := din6 h; din7 := din7 h;
     din8 := din8 h; din9 := din9 h; din10 := din10 h;
     count1 := count1 h; count3 := count3 h; count5 := count5 h;
     count7 := count7 h; count9 := count9 h;
     dout0 := dout0 h; dout1 := dout1 h; dout2 := dout2 h; dout3 := dout3 h;
     SUPPLY_VOLTAGE := SUPPLY_VOLTAGE h;
     an_read_voltage_mv := read;
     an_read_current_ua := an_read_current_ua h |}.

Definition with_current (read : Z -> result Z) (h : Hal) : Hal :=
  {| din0 := din0 h; din1 := din1 h; din2 := din2 h; din3 := din3 h;
     din4 := din4 h; din5 := din5 h; din6 := din6 h; din7 := din7 h;
     din8 := din8 h; din9 := din9 h; din10 := din10 h;
     count1 := count1 h; count3 := count3 h; count5 := count5 h;
     count7 := count7 h; count9 := count9 h;
     dout0 := dout0 h; dout1 := dout1 h; dout2 := dout2 h; dout3 := dout3 h;
     SUPPLY_VOLTAGE := SUPPLY_VOLTAGE h;
     an_read_voltage_mv := an_read_voltage_mv h;
     an_read_current_ua := read |}.

(** *** _fmt_uptime *)

Definition _fmt_uptime (seconds : Z) : string :=
  let days := seconds / 86400 in
  let hours := (seconds mod 86400) / 3600 in
  let minutes := (seconds mod 3600) / 60 in
  let secs := seconds mod 60 in
  let hms := (fmt_02d hours ++ ":" ++ fmt_02d minutes ++ ":" ++ fmt_02d secs)%string in
  if negb (days =? 0) then (str_of_int days ++ "d " ++ hms)%string else hms.

(** *** _read_status *)

Definition int_of_bool (r : result bool) : result value :=
  let* b := r in Ok (VInt (Z.b2z b)).

(** [int(countN.count if countN is not None else int(dinN.value))] *)
Definition counted_input (count : option (result Z)) (din : result bool)
    : result value :=
  match count with
  | Some c => let* n := c in Ok (VInt n)
  | None => int_of_bool din
  end.

(** [int(getattr(countN, "count", 0)) if countN is not None else None] *)
Definition counter_value (count : option (result Z)) : result value :=
  match count with
  | Some (Raise AttributeError) => Ok (VInt 0)
  | Some c => let* n := c in Ok (VInt n)
  | None => Ok VNone
  end.

(** The local variables of [_read_status] before it builds the
    document. *)
Record Locals : Type := {
  mac : option string;
  ip : option string;
  link : option bool;
  uptime_s : Z;
  cpu_temp_c : option float;
  supply_mv : option Z;
  dins : value;
  counters : value;
  douts : value;
  anv0 : option Z;
  anv1 : option Z;
  ana0 : option Z;
  ana1 : option Z }.

(** The dict displays [dins], [counters] and [douts]. *)
Definition read_dins (h : Hal) : result value :=
  let* di0 := int_of_bool (din0 h) in
  let* di1 := counted_input (count1 h) (din1 h) in
  let* di2 := int_of_bool (din2 h) in
  let* di3 := counted_input (count3 h) (din3 h) in
  let* di4 := int_of_bool (din4 h) in
  let* di5 := counted_input (count5 h) (din5 h) in
  let* di6 := int_of_bool (din6 h) in
  let* di7 := counted_input (count7 h) (din7 h) in
  let* di8 := int_of_bool (din8 h) in
  let* di9 := counted_input (count9 h) (din9 h) in
  let* di10 := int_of_bool (din10 h) in
  Ok (VDict
        [("DI0", di0); ("DI1", di1); ("DI2", di2); ("DI3", di3);
         ("DI4", di4); ("DI5", di5); ("DI6", di6); ("DI7", di7);
         ("DI8", di8); ("DI9", di9); ("DI10", di10)]).

Definition read_counters (h : Hal) : result value :=
  let* c1 := counter_value (count1 h) in
  let* c3 := counter_value (count3 h) in
  let* c5 := counter_value (count5 h) in
  let* c7 := counter_value (count7 h) in
  let* c9 := counter_value (count9 h) in
  Ok (VDict
        [("COUNT1", c1); ("COUNT3", c3); ("COUNT5", c5);
         ("COUNT7", c7); ("COUNT9", c9)]).

Definition read_douts (h : Hal) : result value :=
  let* do0 := int_of_bool (dout0 h) in
  let* do1 := int_of_bool (dout1 h) in
  let* do2 := int_of_bool (dout2 h) in
  let* do3 := int_of_bool (dout3 h) in
  Ok (VDict [("DO0", do0); ("DO1", do1); ("DO2", do2); ("DO3", do3)]).

(** [try: a0 = int(read(0)); a1 = int(read(1))
     except Exception: a0 = None; a1 = None] *)
Definition read_pair (read : Z -> result Z) : result (option Z * option Z) :=
  let* pair := attempt (let* v0 := read 0 in
                        let* v1 := read 1 in Ok (v0, v1)) in
  match pair with
  | Some (v0, v1) => Ok (Some v0, Some v1)
  | None => Ok (None, None)
  end.

(** The body of [_read_status] down to the [return]. *)
Definition read_locals (sys : System) : result Locals :=
  let h := hal sys in
  let* mac := match eth (modbus sys) with
              | Some e => attempt (pretty_mac e)
              | None => Ok None
              end in
  let* ip := match eth (modbus sys) with
             | Some e => attempt (pretty_ip e)
             | None => Ok None
             end in
  let* link := match eth (modbus sys) with
               | Some e => attempt (link_status e)
               | None => Ok None
               end in
  let* uptime_s := int_of_float (monotonic sys) in
  let* cpu_temp_c := attempt (cpu_temperature sys) in
  let* supply_mv := attempt (SUPPLY_VOLTAGE h) in
  let* dins := read_dins h in
  let* counters := read_counters h in
  let* douts := read_douts h in
  let* anv := read_pair (an_read_voltage_mv h) in
  let* ana := read_pair (an_read_current_ua h) in
  Ok {| mac := mac; ip := ip; link := link; uptime_s := uptime_s;
        cpu_temp_c := cpu_temp_c; supply_mv := supply_mv;
        dins := dins; counters := counters; douts := douts;
        anv0 := fst anv; anv1 := snd anv; ana0 := fst ana; ana1 := snd ana |}.

(** The returned dict, given the locals and the sensor status. *)
Definition document (m : Modbus) (l : Locals) (rs485 : value) : value :=
  VDict
    [("device",
      VDict
        [("model", VStr "IRIV-IOC");
         ("hostname", RS485.of_option VStr (hostname m));
         ("mac", RS485.of_option VStr (mac l));
         ("ip", RS485.of_option VStr (ip l));
         ("link_up", RS485.of_option VBool (link l));
         ("uptime_seconds", VInt (uptime_s l));
         ("uptime_hms", VStr (_fmt_uptime (uptime_s l)));
         ("cpu_temp_c", RS485.of_option VFloat (cpu_temp_c l));
         ("supply_mv", RS485.of_option VInt (supply_mv l))]);
     ("io",
      VDict
        [("din", dins l);
         ("dout", douts l);
         ("counters", counters l);
         ("an_voltage_mv",
          VDict [("AN0", RS485.of_option VInt (anv0 l));
                 ("AN1", RS485.of_option VInt (anv1 l))]);
         ("an_current_ua",
          VDict [("AN0", RS485.of_option VInt (ana0 l));
                 ("AN1", RS485.of_option VInt (ana1 l))])]);
     ("sensors", VDict [("rs485", rs485)])].

Definition _read_status (sys : System) : result value :=
  let* l := read_locals sys in
  let* rs485 := RS485.get_status (sensor sys) in
  Ok (document (modbus sys) l rs485).

(** The locals with one wrapped read degraded. *)
Definition without_mac (l : Locals) : Locals :=
  {| mac := None;
     ip := ip l;
     link := link l;
     uptime_s := uptime_s l;
     cpu_temp_c := cpu_temp_c l;
     supply_mv := supply_mv l;
     dins := dins l;
     counters := counters l;
     douts := douts l;
     anv0 := anv0 l;
     anv1 := anv1 l;
     ana0 := ana0 l;
     ana1 := ana1 l |}.

Definition without_ip (l : Locals) : Locals :=
  {| mac := mac l;
     ip := None;
     link := link l;
     uptime_s := uptime_s l;
     cpu_temp_c := cpu_temp_c l;
     supply_mv := supply_mv l;
     dins := dins l;
     counters := counters l;
     douts := douts l;
     anv0 := anv0 l;
     anv1 := anv1 l;
     ana0 := ana0 l;
     ana1 := ana1 l |}.

Definition without_link (l : Locals) : Locals :=
  {| mac := mac l;
     ip := ip l;
     link := None;
     uptime_s := uptime_s l;
     cpu_temp_c := cpu_temp_c l;
     supply_mv := supply_mv l;
     dins := dins l;
     counters := counters l;
     douts := douts l;
     anv0 := anv0 l;
     anv1 := anv1 l;
     ana0 := ana0 l;
     ana1 := ana1 l |}.

Definition without_cpu_temp (l : Locals) : Locals :=
  {| mac := mac l;
     ip := ip l;
     link := link l;
     uptime_s := uptime_s l;
     cpu_temp_c := None;
     supply_mv := supply_mv l;
     dins := dins l;
     counters := counters l;
     douts := douts l;
     anv0 := anv0 l;
     anv1 := anv1 l;
     ana0 := ana0 l;
     ana1 := ana1 l |}.

Definition without_supply (l : Locals) : Locals :=
  {| mac := mac l;
     ip := ip l;
     link := link l;
     uptime_s := uptime_s l;
     cpu_temp_c := cpu_temp_c l;
     supply_mv := None;
     dins := dins l;
     counters := counters l;
     douts := douts l;
     anv0 := anv0 l;
     anv1 := anv1 l;
     ana0 := ana0 l;
     ana1 := ana1 l |}.

Definition without_voltage (l : Locals) : Locals :=
  {| mac := mac l;
     ip := ip l;
     link := link l;
     uptime_s := uptime_s l;
     cpu_temp_c := cpu_temp_c l;
     supply_mv := supply_mv l;
     dins := dins l;
     counters := counters l;
     douts := douts l;
     anv0 := None;
     anv1 := None;
     ana0 := ana0 l;
     ana1 := ana1 l |}.

Definition without_current (l : Locals) : Locals :=
  {| mac := mac l;
     ip := ip l;
     link := link l;
     uptime_s := uptime_s l;
     cpu_temp_c := cpu_temp_c l;
     supply_mv := supply_mv l;
     dins := dins l;
     counters := counters l;
     douts := douts l;
     anv0 := anv0 l;
     anv1 := anv1 l;
     ana0 := None;
     ana1 := None |}.

(** *** The output toggle routes *)

Inductive output : Set := DO0 | DO1 | DO2 | DO3.

Definition output_eqb (a b : output) : bool :=
  match a, b with
  | DO0, DO0 | DO1, DO1 | DO2, DO2 | DO3, DO3 => true
  | _, _ => false
  end.

Definition get_dout (o : output) (h : Hal) : result bool :=
  match o with
  | DO0 => dout0 h
  | DO1 => dout1 h
  | DO2 => dout2 h
  | DO3 => dout3 h
  end.

(** [Hal.doutN.value = v] *)
Definition set_dout (o : output) (v : bool) (h : Hal) : Hal :=
  let pin (p : output) : result bool :=
    if output_eqb p o then Ok v else get_dout p h in
  {| din0 := din0 h; din1 := din1 h; din2 := din2 h; din3 := din3 h;
     din4 := din4 h; din5 := din5 h; din6 := din6 h; din7 := din7 h;
     din8 := din8 h; din9 := din9 h; din10 := din10 h;
     count1 := count1 h; count3 := count3 h; count5 := count5 h;
     count7 := count7 h; count9 := count9 h;
     dout0 := pin DO0; dout1 := pin DO1; dout2 := pin DO2; dout3 := pin DO3;
     SUPPLY_VOLTAGE := SUPPLY_VOLTAGE h;
     an_read_voltage_mv := an_read_voltage_mv h;
     an_read_current_ua := an_read_current_ua h |}.

Definition DO_ADD (o : output) (m : Modbus) : Z :=
  match o with
  | DO0 => DO0_ADD m
  | DO1 => DO1_ADD m
  | DO2 => DO2_ADD m
  | DO3 => DO3_ADD m
  end.

Record Response : Type := { body : string; content_type : string }.

Definition redirect : Response :=
  {| body := "<!doctype html><meta http-equiv='refresh' content='0;url=/'><a href='/'>Back</a>";
     content_type := "text/html; charset=utf-8" |}.

(** The body shared by the four routes:
    [newv = 0 if Hal.doutN.value else 1; Hal.doutN.value = newv;
     Modbus.client.set_coil(Modbus.DON_ADD, newv)] under
    [try ... except Exception: pass], then the redirect page. *)
Definition toggle (o : output) (sys : System) : System * result Response :=
  match get_dout o (hal sys) with
  | Ok cur =>
      let newv : Z := if cur then 0 else 1 in
      let sys1 := with_hal (set_dout o (negb (newv =? 0)) (hal sys)) sys in
      match set_coil (DO_ADD o (modbus sys1)) newv (modbus sys1) with
      | Ok m => (with_modbus m sys1, Ok redirect)
      | Raise e => (sys1, if is_Exception e then Ok redirect else Raise e)
      end
  | Raise e => (sys, if is_Exception e then Ok redirect else Raise e)
  end.

Definition do0_toggle : System -> System * result Response := toggle DO0.
Definition do1_toggle : System -> System * result Response := toggle DO1.
Definition do2_toggle : System -> System * result Response := toggle DO2.
Definition do3_toggle : System -> System * result Response := toggle DO3.

End WebStatus.

(** ** lib/main.py: the scheduler loop *)

Module Main.

(** What one iteration of the loop meets: how the three subsystem steps
    end, and the two readings of [time.monotonic()] of the heartbeat
    (the second is taken only when the first shows the interval over). *)
Record Tick : Type := {
  modbus_process : result unit;
  web_process : result unit;
  sensor_process : result unit;
  clock_check : float;
  clock_stamp : float }.

(** The loop's [timestamp], and [led], the indicator as the heartbeat
    of the loop drives it.  The web step also writes Hal.led.value when
    it serves the /toggle_led route; these writes are not followed, so
    [led] tells how often the heartbeat has flipped the indicator, not
    what the indicator shows. *)
Record State : Type := { timestamp : float; led : bool }.

Inductive event : Set :=
  | Feed            (** watchdog.feed() *)
  | ModbusStep      (** iriv_ioc_modbus.client.process() *)
  | WebStep         (** web_status.process() *)
  | SensorStep      (** rs485_sensor.process() *)
  | Print           (** a message on the console *)
  | LedToggle.      (** Hal.led.value ^= 1 *)

Inductive status : Type :=
  | Running (s : State)   (** the loop goes on to its next iteration *)
  | Stopped               (** [break] *)
  | Crashed (e : exn).    (** an exception left the loop *)

Definition heartbeat_due (t : Tick) (s : State) : bool :=
  (0.5 <=? clock_check t - timestamp s)%float.

Definition heartbeat (t : Tick) (s : State) : list event * State :=
  if heartbeat_due t s
  then ([LedToggle], {| timestamp := clock_stamp t; led := negb (led s) |})
  else ([], s).

(** The rest of an iteration after the Modbus block. *)
Definition after_modbus (t : Tick) (s : State) : list event * status :=
  match web_process t with
  | Raise (KeyboardInterrupt as e) => ([WebStep], Crashed e)
  | _ =>
      match sensor_process t with
      | Raise (KeyboardInterrupt as e) => ([WebStep; SensorStep], Crashed e)
      | _ =>
          let (blink, s') := heartbeat t s in
          ([WebStep; SensorStep] ++ blink ++ [Feed], Running s')
      end
  end.

(** The body of [while True]. *)
Definition iteration (t : Tick) (s : State) : list event * status :=
  match modbus_process t with
  | Raise KeyboardInterrupt => ([Feed; ModbusStep; Print], Stopped)
  | Raise _ =>
      let (evs, st) := after_modbus t s in
      ([Feed; ModbusStep; Print] ++ evs, st)
  | Ok _ =>
      let (evs, st) := after_modbus t s in
      ([Feed; ModbusStep] ++ evs, st)
  end.

(** The loop over the iterations whose inputs are [ticks]. *)
Fixpoint loop (ticks : list Tick) (s : State) : list event * status :=
  match ticks with
  | [] => ([], Running s)
  | t :: rest =>
      match iteration t s with
      | (evs, Running s') =>
          let (evs', st) := loop rest s' in (evs ++ evs', st)
      | stopped => stopped
      end
  end.

(** The events of an iteration that no interrupt cuts short. *)
Definition schedule (t : Tick) (s : State) : list event :=
  [Feed; ModbusStep] ++ (if raised (modbus_process t) then [Print] else []) ++
  [WebStep; SensorStep] ++ fst (heartbeat t s) ++ [Feed].

(** The feeds and steps of one full iteration. *)
Definition tick_steps : list event :=
  [Feed; ModbusStep; WebStep; SensorStep; Feed].

(** The watchdog feeds and subsystem steps among the events. *)
Definition is_step (e : event) : bool :=
  match e with
  | Feed | ModbusStep | WebStep | SensorStep => true
  | Print | LedToggle => false
  end.

Definition no_interrupt (t : Tick) : Prop :=
  modbus_process t <> Raise KeyboardInterrupt /\
  web_process t <> Raise KeyboardInterrupt /\
  sensor_process t <> Raise KeyboardInterrupt.

End Main.

(** ** Sample inputs *)

Module Sample.
Import RS485.

(** Settings that enable the sensor with the SN_HUTE preset. *)
Definition settings : Env :=
  {| MODBUS_MODE := Some "TCP";
     RS485_SENSOR_ENABLE := Some "1";
     RS485_SENSOR_PROFILE := Some "SN_HUTE";
     RS485_SENSOR_ADDR := Unset; RS485_SENSOR_REG := Unset;
     RS485_SENSOR_FUNC := None; RS485_SENSOR_SIGNED := None;
     RS485_SENSOR_FORMAT := None; RS485_SENSOR_QTY := Unset;
     RS485_SENSOR_SCALE := Unset;
     RS485_SENSOR_HUM_ENABLE := None; RS485_SENSOR_HUM_REG := Unset;
     RS485_SENSOR_HUM_SIGNED := None; RS485_SENSOR_HUM_FORMAT := None;
     RS485_SENSOR_HUM_QTY := Unset; RS485_SENSOR_HUM_SCALE := Unset;
     RS485_SENSOR_POLL_SEC := Unset;
     RS485_SENSOR_BAUD := Unset; MODBUS_RTU_BAUDRATE := Unset |}.

(** A call at time [now] in which the transport can be constructed or
    not, and the bus answers [primary] and [humidity]. *)
Definition world (now : float) (ctor : result unit)
    (primary humidity : result (list Z)) : World :=
  {| env := settings; monotonic := now; serial_ctor := ctor;
     primary_response := primary; humidity_response := humidity |}.

(** The poller after a successful start at time 0. *)
Definition active : State :=
  step (world 0 (Ok tt) (Ok [235]) (Ok [612])) initial.

(** The first call when the transport cannot be constructed, and the
    poller it leaves behind. *)
Definition no_transport : World :=
  world 0 (Raise OSError) (Ok [235]) (Ok [612]).

Definition stranded : State := step no_transport initial.

(** The poller after a first successful poll at time 2. *)
Definition polled : State :=
  step (world 2 (Ok tt) (Ok [235]) (Ok [612])) active.

(** A call at time 5 in which the primary read fails, and one in which
    the humidity read fails. *)
Definition primary_down : World :=
  world 5 (Ok tt) (Raise OSError) (Ok [640]).

Definition humidity_down : World :=
  world 5 (Ok tt) (Ok [240]) (Raise OSError).

(** A board on which every read succeeds: outputs 0 and 2 on, one
    counter fitted, the coils of the four outputs registered. *)
Definition board_hal : WebStatus.Hal :=
  {| WebStatus.din0 := Ok true; WebStatus.din1 := Ok false;
     WebStatus.din2 := Ok false; WebStatus.din3 := Ok false;
     WebStatus.din4 := Ok true; WebStatus.din5 := Ok false;
     WebStatus.din6 := Ok false; WebStatus.din7 := Ok false;
     WebStatus.din8 := Ok false; WebStatus.din9 := Ok false;
     WebStatus.din10 := Ok true;
     WebStatus.count1 := Some (Ok 42); WebStatus.count3 := None;
     WebStatus.count5 := None; WebStatus.count7 := None;
     WebStatus.count9 := None;
     WebStatus.dout0 := Ok true; WebStatus.dout1 := Ok false;
     WebStatus.dout2 := Ok true; WebStatus.dout3 := Ok false;
     WebStatus.SUPPLY_VOLTAGE := Ok 24000;
     WebStatus.an_read_voltage_mv := fun ch => Ok (1000 + ch);
     WebStatus.an_read_current_ua := fun ch => Ok (4000 + ch) |}.

Definition board_eth : WebStatus.Eth :=
  {| WebStatus.pretty_mac := Ok "de:ad:be:ef:fe:ed";
     WebStatus.pretty_ip := Ok "192.168.1.10";
     WebStatus.link_status := Ok true |}.

Definition board_modbus : WebStatus.Modbus :=
  {| WebStatus.eth := Some board_eth;
     WebStatus.hostname := Some "iriv";
     WebStatus.DO0_ADD := 0; WebStatus.DO1_ADD := 1;
     WebStatus.DO2_ADD := 2; WebStatus.DO3_ADD := 3;
     WebStatus.coils := {[ 0 := 1; 1 := 0; 2 := 1; 3 := 0 ]} |}.

Definition board : WebStatus.System :=
  {| WebStatus.hal := board_hal;
     WebStatus.modbus := board_modbus;
     WebStatus.cpu_temperature := Ok 41.5%float;
     WebStatus.monotonic := 93784.25%float;
     WebStatus.sensor := polled |}.

(** The scheduler right after start, an iteration at time 0.7 in which
    the three steps raise, and one in which the Modbus step is
    interrupted from the keyboard. *)
Definition boot : Main.State := {| Main.timestamp := 0; Main.led := false |}.

Definition faulty_tick : Main.Tick :=
  {| Main.modbus_process := Raise OSError;
     Main.web_process := Raise ValueError;
     Main.sensor_process := Raise AttributeError;
     Main.clock_check := 0.7; Main.clock_stamp := 0.75 |}.

Definition interrupted_tick : Main.Tick :=
  {| Main.modbus_process := Raise KeyboardInterrupt;
     Main.web_process := Ok tt;
     Main.sensor_process := Ok tt;
     Main.clock_check := 0.7; Main.clock_stamp := 0.75 |}.

End Sample.

(** ** lib/web_status.py: activation of the HTTP server *)

Module WebServer.

Record Env : Type := {
  MODBUS_MODE : option string;
  WEBSERVER_ENABLE : option string;
  WEBSERVER_PORT : RS485.setting Z }.

(** The socket pool of the Modbus module and the server built on it. *)
Record Pool : Type := { pool_id : Z }.

Record Server : Type := { server_pool : Pool; root_path : string }.

(** The module-level globals [_enabled], [_pool], [_http_server]. *)
Record State : Type := {
  _enabled : bool;
  _pool : option Pool;
  _http_server : option Server }.

Definition initial : State :=
  {| _enabled := false; _pool := None; _http_server := None |}.

(** What one call of [process] meets outside the module: the settings,
    whether the HTTP library could be imported, the socket pool and the
    Ethernet interface of the Modbus module, and how constructing,
    starting and polling the server end. *)
Record World : Type := {
  env : Env;
  _have_httpserver : bool;
  sockpool : option Pool;
  eth : option WebStatus.Eth;
  server_ctor : result unit;
  server_start : result unit;
  server_poll : result unit }.

Inductive event : Type :=
  | Start (host : option string) (port : Z)
  | Poll.

(** [enable = True], replaced by the parsed WEBSERVER_ENABLE when it is
    set. *)
Definition enable_flag (v : option string) : bool :=
  match v with
  | None => true
  | Some val =>
      existsb (String.eqb (lower (strip val))) ["1"; "true"; "yes"; "on"]
  end.

(** [port = 80], replaced by [int(pv)] when WEBSERVER_PORT is set and
    converts. *)
Definition port_of (v : RS485.setting Z) : Z :=
  match v with
  | RS485.Given n => n
  | _ => 80
  end.

(** [ip_str]: the device address, None when there is no interface or
    reading its address raises. *)
Definition bind_host (e : option WebStatus.Eth) : result (option string) :=
  match e with
  | Some eth => attempt (WebStatus.pretty_ip eth)
  | None => Ok None
  end.

Definition is_rtu (v : option string) : bool :=
  match v with
  | Some s => String.eqb s "RTU"
  | None => false
  end.

Definition set_enabled (b : bool) (s : State) : State :=
  {| _enabled := b; _pool := _pool s; _http_server := _http_server s |}.

Definition set_pool (p : option Pool) (s : State) : State :=
  {| _enabled := _enabled s; _pool := p; _http_server := _http_server s |}.

Definition set_http_server (h : option Server) (s : State) : State :=
  {| _enabled := _enabled s; _pool := _pool s; _http_server := h |}.

(** The outer handler: [_enabled = False; _pool = None;
    _http_server = None]. *)
Definition abandon (e : exn) (s : State) (evs : list event)
    : State * list event * result unit :=
  if is_Exception e then (initial, evs, Ok tt) else (s, evs, Raise e).

Definition _init_server (w : World) (s : State)
    : State * list event * result unit :=
  if is_rtu (MODBUS_MODE (env w)) then (set_enabled false s, [], Ok tt)
  else if negb (_have_httpserver w) then (set_enabled false s, [], Ok tt)
  else if negb (enable_flag (WEBSERVER_ENABLE (env w))) then
    (set_enabled false s, [], Ok tt)
  else
    let s1 := set_pool (sockpool w) s in
    match sockpool w with
    | None => (set_enabled false s1, [], Ok tt)
    | Some pool =>
        let port := port_of (WEBSERVER_PORT (env w)) in
        match server_ctor w with
        | Raise e => abandon e s1 []
        | Ok _ =>
            let s2 :=
              set_http_server
                (Some {| server_pool := pool; root_path := "/" |}) s1 in
            match bind_host (eth w) with
            | Raise e => (s2, [], Raise e)
            | Ok ip_str =>
                match server_start w with
                | Raise e => abandon e s2 [Start ip_str port]
                | Ok _ => (set_enabled true s2, [Start ip_str port], Ok tt)
                end
            end
        end
    end.

Definition process (w : World) (s : State)
    : State * list event * result unit :=
  if negb (_enabled s) then _init_server w s
  else
    match _http_server s with
    | None => (s, [], Ok tt)
    | Some _ =>
        match server_poll w with
        | Raise e => (s, [Poll], if is_Exception e then Ok tt else Raise e)
        | Ok _ => (s, [Poll], Ok tt)
        end
    end.

(** Successive calls of [process]; a call that lets an exception escape
    ends the run. *)
Fixpoint steps (ws : list World) (s : State) : State :=
  match ws with
  | [] => s
  | w :: rest =>
      match process w s with
      | (s', _, Ok _) => steps rest s'
      | (s', _, Raise _) => s'
      end
  end.

(** Whether a call from a disabled state brings the server up. *)
Definition activates (w : World) : bool :=
  negb (is_rtu (MODBUS_MODE (env w))) && _have_httpserver w &&
  enable_flag (WEBSERVER_ENABLE (env w)) &&
  match sockpool w with Some _ => true | None => false end &&
  succeeded (server_ctor w) && succeeded (bind_host (eth w)) &&
  succeeded (server_start w).

End WebServer.

(** ** More sample inputs *)

Module Scenario.

(** Settings of a device in RTU mode, and a call of the sensor poller
    under them. *)
Definition rtu_settings : RS485.Env :=
  {| RS485.MODBUS_MODE := Some "RTU";
     RS485.RS485_SENSOR_ENABLE := Some "1";
     RS485.RS485_SENSOR_PROFILE := None;
     RS485.RS485_SENSOR_ADDR := RS485.Unset;
     RS485.RS485_SENSOR_REG := RS485.Unset;
     RS485.RS485_SENSOR_FUNC := None; RS485.RS485_SENSOR_SIGNED := None;
     RS485.RS485_SENSOR_FORMAT := None; RS485.RS485_SENSOR_QTY := RS485.Unset;
     RS485.RS485_SENSOR_SCALE := RS485.Unset;
     RS485.RS485_SENSOR_HUM_ENABLE := None;
     RS485.RS485_SENSOR_HUM_REG := RS485.Unset;
     RS485.RS485_SENSOR_HUM_SIGNED := None;
     RS485.RS485_SENSOR_HUM_FORMAT := None;
     RS485.RS485_SENSOR_HUM_QTY := RS485.Unset;
     RS485.RS485_SENSOR_HUM_SCALE := RS485.Unset;
     RS485.RS485_SENSOR_POLL_SEC := RS485.Unset;
     RS485.RS485_SENSOR_BAUD := RS485.Unset;
     RS485.MODBUS_RTU_BAUDRATE := RS485.Unset |}.

Definition rtu_world (now : float) : RS485.World :=
  {| RS485.env := rtu_settings; RS485.monotonic := now;
     RS485.serial_ctor := Ok tt;
     RS485.primary_response := Ok [235];
     RS485.humidity_response := Ok [612] |}.

(** Calls of the web server's [process]: one in which the server cannot
    be started, one in which everything works. *)
Definition web_env : WebServer.Env :=
  {| WebServer.MODBUS_MODE := Some "TCP";
     WebServer.WEBSERVER_ENABLE := None;
     WebServer.WEBSERVER_PORT := RS485.Given 8080 |}.

Definition web_world (start : result unit) : WebServer.World :=
  {| WebServer.env := web_env;
     WebServer._have_httpserver := true;
     WebServer.sockpool := Some {| WebServer.pool_id := 1 |};
     WebServer.eth := Some Sample.board_eth;
     WebServer.server_ctor := Ok tt;
     WebServer.server_start := start;
     WebServer.server_poll := Raise OSError |}.

(** A call in which the Ethernet interface is there and reading its
    address raises. *)
Definition no_address : WebServer.World :=
  {| WebServer.env := web_env;
     WebServer._have_httpserver := true;
     WebServer.sockpool := Some {| WebServer.pool_id := 1 |};
     WebServer.eth :=
       Some {| WebStatus.pretty_mac := Ok "de:ad:be:ef:fe:ed";
               WebStatus.pretty_ip := Raise OSError;
               WebStatus.link_status := Ok true |};
     WebServer.server_ctor := Ok tt;
     WebServer.server_start := Ok tt;
     WebServer.server_poll := Ok tt |}.

(** A board whose coil table lacks the coil of output 0. *)
Definition unmirrored : WebStatus.System :=
  WebStatus.with_modbus
    {| WebStatus.eth := Some Sample.board_eth;
       WebStatus.hostname := Some "iriv";
       WebStatus.DO0_ADD := 0; WebStatus.DO1_ADD := 1;
       WebStatus.DO2_ADD := 2; WebStatus.DO3_ADD := 3;
       WebStatus.coils := {[ 1 := 0; 2 := 1; 3 := 0 ]} |}
    Sample.board.

End Scenario.

(** ** Reasoning about statements over the sensor globals *)

Module Logic.
Import RS485.

(** [keeps I c]: statement [c] ends, normally or by raising, in globals
    that satisfy [I] whenever it starts in such globals. *)
Definition keeps (I : State -> Prop) {A} (c : M A) : Prop :=
  forall m, I (globals m) -> I (globals (fst (c m))).

(** [quiet c]: statement [c] lets no exception through that
    [except Exception] would not catch. *)
Definition quiet {A} (c : M A) : Prop :=
  forall m, interrupted (snd (c m)) = false.

(** The readings and the error counter among the globals. *)
Definition readings (s : State)
    : option float * option Z * bool * float * Z *
      (option float * option Z * bool) :=
  (_last_value s, _last_raw s, _last_ok s, _last_ts s, _err_count s,
   (_last_hum s, _last_hum_raw s, _last_hum_ok s)).

(** The configuration, the transport and the next due time among the
    globals. *)
Definition configuration (s : State)
    : bool * option Serial * (Z * Z * bool * bool * float * string * Z) *
      (bool * Z * bool * float * string * Z) * float :=
  (_enabled s, _serial s,
   (_slave_addr s, _reg_addr s, _use_input_regs s, _signed s, _scale s,
    _format s, _qty s),
   (_hum_enable s, _hum_reg s, _hum_signed s, _hum_scale s, _hum_format s,
    _hum_qty s),
   _poll_s s).

(** The poll interval is not below its floor. *)
Definition interval_floor (s : State) : Prop :=
  (_poll_s s <? 0.2)%float = false.

(** How a [try] block ends whose reading is [r]: an exception that
    [except Exception] does not catch goes on. *)
Definition escape {A} (r : result A) : result unit :=
  match r with
  | Raise e => if is_Exception e then Ok tt else Raise e
  | Ok _ => Ok tt
  end.

(** No collaborator of the web server raises an interrupt. *)
Definition calm (w : WebServer.World) : bool :=
  negb (interrupted (WebServer.server_ctor w)) &&
  negb (interrupted (WebServer.bind_host (WebServer.eth w))) &&
  negb (interrupted (WebServer.server_start w)) &&
  negb (interrupted (WebServer.server_poll w)).

(** The baud rate the settings ask for: RS485_SENSOR_BAUD, else
    MODBUS_RTU_BAUDRATE, else 9600. *)
Definition baud_of (e : Env) : Z :=
  match RS485_SENSOR_BAUD e, MODBUS_RTU_BAUDRATE e with
  | Given b, _ => b
  | Unset, Given b => b
  | _, _ => 9600
  end.

(** A transport among the globals is one that [w] constructed: at the
    baud rate of the settings, with the first poll due at once. *)
Definition constructed (w : World) (s : State) : Prop :=
  match _serial s with
  | None => True
  | Some ser =>
      baudrate ser = baud_of (env w) /\
      serial_ctor w = Ok tt /\
      _next_poll s = monotonic w
  end.

(** A string of white space only. *)
Fixpoint blank (s : string) : bool :=
  match s with
  | String c s' => is_space c && blank s'
  | EmptyString => true
  end.

(** The settings switch the sensor on. *)
Definition switched_on (e : Env) : bool :=
  negb (is_not (MODBUS_MODE e) "TCP") &&
  _parse_bool (RS485_SENSOR_ENABLE e) false.

(** The readings agree with their flags: a reading flagged as good is
    there, and while no value was ever stored the time of the last
    update is still zero. *)
Definition coherent (s : State) : Prop :=
  (_last_ok s = true -> is_Some (_last_value s) /\ is_Some (_last_raw s)) /\
  (_last_hum_ok s = true ->
   is_Some (_last_hum s) /\ is_Some (_last_hum_raw s)) /\
  (_last_value s = None -> _last_ts s = 0%float).

End Logic.

(** ** Exhaustive checks

    [all_bits n f]: [f] holds of every positive number of at most
    [n + 1] binary digits. *)

Fixpoint all_bits (n : nat) (f : positive -> bool) : bool :=
  f 1%positive &&
  match n with
  | O => true
  | S n' =>
      all_bits n' (fun p => f (p~0)%positive) &&
      all_bits n' (fun p => f (p~1)%positive)
  end.

(** * Properties *)

Import RS485.

(** ** Builtins on sample values *)

Example float_of_bits32_one : float_of_bits32 0x3F800000 = 1%float.
Proof. reflexivity. Qed.

Example float_of_bits32_negative : float_of_bits32 0xC0200000 = (-2.5)%float.
Proof. reflexivity. Qed.

Example float_of_bits32_infinity : float_of_bits32 0x7F800000 = infinity.
Proof. reflexivity. Qed.

Example float_of_bits32_smallest :
  float_of_bits32 1 = SF2Prim (S754_finite false 1 (-149)).
Proof. reflexivity. Qed.

Example int_of_float_truncates :
  int_of_float 12.75%float = Ok 12 /\ int_of_float (-3.5)%float = Ok (-3).
Proof. split; reflexivity. Qed.

Example strip_lower_format : lower (strip "  Float32_Swapped ") = "float32_swapped".
Proof. reflexivity. Qed.

Example fmt_uptime_day : WebStatus._fmt_uptime 93784 = "1d 02:03:04".
Proof. reflexivity. Qed.

Example fmt_uptime_short : WebStatus._fmt_uptime 59 = "00:00:59".
Proof. reflexivity. Qed.

(** ** Bit patterns *)

Lemma testbit_mask (k n : Z) :
  0 <= k -> Z.testbit (Z.ones k) n = (0 <=? n) && (n <? k).
Proof.
  intros Hk. destruct (Z.leb_spec 0 n) as [Hn|Hn]; cbn [andb].
  - now apply Z.testbit_ones_nonneg.
  - now apply Z.testbit_neg_r.
Qed.

Lemma testbit_high (x n : Z) :
  0 <= x < 2 ^ 32 -> 32 <= n -> Z.testbit x n = false.
Proof.
  intros Hx Hn. destruct (Z.eq_dec x 0) as [->|Hne].
  - apply Z.testbit_0_l.
  - apply Z.bits_above_log2; [lia|].
    assert (Z.log2 x < 32) by (apply Z.log2_lt_pow2; lia). lia.
Qed.

Ltac bitwise n :=
  apply Z.bits_inj'; intros n ?;
  change 255 with (Z.ones 8); change 65535 with (Z.ones 16);
  repeat first
    [ rewrite Z.lor_spec | rewrite Z.land_spec
    | rewrite Z.shiftl_spec by lia | rewrite testbit_mask by lia ].

Ltac split_ranges :=
  repeat match goal with
    | |- context [(?a <=? ?b)] => destruct (Z.leb_spec a b)
    | |- context [(?a <? ?b)] => destruct (Z.ltb_spec a b)
    end;
  cbn [andb orb]; rewrite ?andb_false_r, ?andb_true_r, ?orb_false_r, ?orb_false_l;
  try reflexivity; try lia.

(** The four bytes of [struct.pack('!I', x)] put together again. *)
Lemma bytes_reassemble (x : Z) :
  0 <= x < 2 ^ 32 ->
  Z.lor (Z.shiftl (Z.land (Z.shiftr x 24) 255) 24)
    (Z.lor (Z.shiftl (Z.land (Z.shiftr x 16) 255) 16)
       (Z.lor (Z.shiftl (Z.land (Z.shiftr x 8) 255) 8) (Z.land x 255))) = x.
Proof.
  intros Hx. bitwise n.
  split_ranges; rewrite ?Z.shiftr_spec by lia;
    rewrite ?Z.sub_add; try reflexivity.
  symmetry. apply testbit_high; lia.
Qed.

(** The two register words of a 32-bit pattern put together again. *)
Lemma words_reassemble (x : Z) :
  0 <= x < 2 ^ 32 ->
  Z.lor (Z.shiftl (Z.land (Z.shiftr x 16) 65535) 16)
    (Z.land (Z.land x 65535) 65535) = x.
Proof.
  intros Hx. bitwise n.
  split_ranges; rewrite ?Z.shiftr_spec by lia;
    rewrite ?Z.sub_add; try reflexivity.
  symmetry. apply testbit_high; lia.
Qed.

Lemma mask16_range (a : Z) : 0 <= Z.land a 65535 < 2 ^ 16.
Proof.
  change 65535 with (Z.ones 16). rewrite Z.land_ones by lia.
  apply Z.mod_pos_bound. lia.
Qed.

Lemma word_pair_range (a b : Z) :
  0 <= Z.lor (Z.shiftl (Z.land a 65535) 16) (Z.land b 65535) < 2 ^ 32.
Proof.
  pose proof (mask16_range a) as Ha. pose proof (mask16_range b) as Hb.
  set (x := Z.land a 65535) in *. set (y := Z.land b 65535) in *.
  assert (Hs : 0 <= Z.shiftl x 16 < 2 ^ 32).
  { rewrite Z.shiftl_mul_pow2 by lia. lia. }
  set (z := Z.lor (Z.shiftl x 16) y).
  assert (Hz : 0 <= z) by (apply Z.lor_nonneg; lia).
  split; [exact Hz|].
  destruct (Z.eq_dec z 0) as [->|Hne]; [lia|].
  apply Z.log2_lt_pow2; [lia|]. unfold z. rewrite Z.log2_lor by lia.
  apply Z.max_lub_lt.
  - destruct (Z.eq_dec (Z.shiftl x 16) 0) as [->|]; [reflexivity|].
    apply Z.log2_lt_pow2; lia.
  - destruct (Z.eq_dec y 0) as [->|]; [reflexivity|].
    apply Z.log2_lt_pow2; lia.
Qed.

(** Packing a 32-bit pattern and unpacking it as a float never raises. *)
Lemma pack_unpack (x : Z) :
  0 <= x < 2 ^ 32 ->
  (let* packed := struct_pack_I x in struct_unpack_f packed)
  = Ok (float_of_bits32 x).
Proof.
  intros Hx. unfold struct_pack_I.
  destruct (Z.leb_spec 0 x); [|lia]. destruct (Z.ltb_spec x (2 ^ 32)); [|lia].
  cbn [andb rbind struct_unpack_f]. now rewrite bytes_reassemble.
Qed.

Lemma all_bits_spec (n : nat) :
  forall f, all_bits n f = true ->
  forall p, Z.pos p < 2 ^ Z.of_nat (S n) -> f p = true.
Proof.
  induction n as [|n IH]; intros f H p Hp.
  - cbn in H. apply andb_prop in H as [H _].
    assert (p = 1%positive) as -> by (change (2 ^ Z.of_nat 1) with 2 in Hp; lia).
    exact H.
  - cbn [all_bits] in H.
    apply andb_prop in H as [H1 H]. apply andb_prop in H as [H0 H2].
    rewrite Nat2Z.inj_succ, Z.pow_succ_r in Hp by lia.
    destruct p as [p|p|].
    + apply (IH _ H2). lia.
    + apply (IH _ H0). lia.
    + exact H1.
Qed.

(** Every 16-bit register word converts to a float. *)
Lemma float_of_word16 (w : Z) : word16 w -> succeeded (float_of_int w) = true.
Proof.
  intros Hw.
  assert (Hall : all_bits 15
            (fun p => succeeded (float_of_int (Z.pos p)) &&
                      succeeded (float_of_int (Z.neg p))) = true)
    by (vm_compute; reflexivity).
  pose proof (all_bits_spec 15 _ Hall) as Hp. cbv beta in Hp.
  unfold word16 in Hw.
  destruct w as [|p|p].
  - reflexivity.
  - specialize (Hp p). change (2 ^ Z.of_nat 16) with 65536 in Hp.
    apply andb_prop in Hp as [Hp _]; [exact Hp | lia].
  - specialize (Hp p). change (2 ^ Z.of_nat 16) with 65536 in Hp.
    apply andb_prop in Hp as [_ Hp]; [exact Hp | lia].
Qed.

Lemma float_of_word16_ok (w : Z) :
  word16 w -> exists f, float_of_int w = Ok f.
Proof.
  intros Hw. apply float_of_word16 in Hw.
  destruct (float_of_int w) as [f|e]; [now exists f | discriminate].
Qed.

(** ** The register decoder *)

Example decode_temperature :
  _decode_vals [235] "int16" false 0.1 = Ok (235, 23.5%float).
Proof. reflexivity. Qed.

Example decode_float32 :
  _decode_vals [0x41BC; 0] "float32" false 2 = Ok (0x41BC0000, 47%float).
Proof. reflexivity. Qed.

Example decode_too_short : _decode_vals [7] "float32" false 1 = Raise IndexError.
Proof. reflexivity. Qed.

Example format_qty_known :
  format_qty "int16" = 1%nat /\ format_qty "uint16" = 1%nat /\
  format_qty "float32" = 2%nat /\ format_qty "float32_swapped" = 2%nat.
Proof. repeat split. Qed.

Lemma decode_fallback (vals : list Z) (fmt : string) (signed : bool) (scale : float) :
  fmt <> "int16" -> fmt <> "uint16" -> fmt <> "float32" ->
  fmt <> "float32_swapped" ->
  _decode_vals vals fmt signed scale = _decode_vals vals "int16" signed scale.
Proof.
  intros H1 H2 H3 H4. unfold _decode_vals.
  apply String.eqb_neq in H1, H2, H3, H4. now rewrite H1, H2, H3, H4.
Qed.

Lemma decode_first_word (w : Z) (rest : list Z) (signed : bool) (scale f : float) :
  float_of_int w = Ok f ->
  _decode_vals (w :: rest) "int16" signed scale = Ok (w, (f * scale)%float).
Proof. intros Hf. cbn. now rewrite Hf. Qed.

Lemma decode_masked_word (w : Z) (rest : list Z) (signed : bool) (scale f : float) :
  float_of_int (Z.land w 0xFFFF) = Ok f ->
  _decode_vals (w :: rest) "uint16" signed scale
  = Ok (Z.land w 0xFFFF, (f * scale)%float).
Proof. intros Hf. cbn. cbn in Hf. now rewrite Hf. Qed.

Lemma decode_word_pair (w0 w1 : Z) (rest : list Z) (signed : bool) (scale : float) :
  let bin32 := Z.lor (Z.shiftl (Z.land w0 0xFFFF) 16) (Z.land w1 0xFFFF) in
  _decode_vals (w0 :: w1 :: rest) "float32" signed scale
  = Ok (bin32, (float_of_bits32 bin32 * scale)%float).
Proof.
  intros bin32. pose proof (pack_unpack bin32 (word_pair_range w0 w1)) as Hp.
  unfold _decode_vals. cbn [String.eqb Ascii.eqb Bool.eqb index nth_error rbind].
  fold bin32. unfold rbind in Hp.
  destruct (struct_pack_I bin32) as [packed|e]; [|discriminate].
  cbn [rbind]. now rewrite Hp.
Qed.

(** Word-swapped decoding is plain decoding of the exchanged words. *)
Lemma decode_swapped (w0 w1 : Z) (rest : list Z) (signed : bool) (scale : float) :
  _decode_vals (w1 :: w0 :: rest) "float32_swapped" signed scale
  = _decode_vals (w0 :: w1 :: rest) "float32" signed scale.
Proof. reflexivity. Qed.

Lemma masked_is_word16 (w : Z) : word16 (Z.land w 0xFFFF).
Proof. pose proof (mask16_range w). unfold word16. cbn in *. lia. Qed.

(** C3, as the code has it: the decoder takes the first word as the
    transport delivered it.  Format int16 returns it unchanged whatever
    [signed] is, so 0xFFFF decodes to raw 65535, and to -1 only when the
    transport (which is handed the signed flag) delivered the word as -1;
    format uint16 masks the word to 16 bits, so both readings of the
    word decode to 65535. *)
Theorem decode_int16_uint16 (w : Z) (rest : list Z) (signed : bool) (scale : float) :
  word16 w ->
  (exists f, float_of_int w = Ok f /\
     _decode_vals (w :: rest) "int16" signed scale = Ok (w, (f * scale)%float)) /\
  (exists f, float_of_int (Z.land w 0xFFFF) = Ok f /\
     _decode_vals (w :: rest) "uint16" signed scale
     = Ok (Z.land w 0xFFFF, (f * scale)%float)) /\
  _decode_vals [0xFFFF] "int16" signed scale = Ok (65535, (65535 * scale)%float) /\
  _decode_vals [-1] "int16" signed scale = Ok (-1, (-1 * scale)%float) /\
  _decode_vals [0xFFFF] "uint16" signed scale = Ok (65535, (65535 * scale)%float) /\
  _decode_vals [-1] "uint16" signed scale = Ok (65535, (65535 * scale)%float).
Proof.
  intros Hw. split; [|split].
  - destruct (float_of_word16_ok w Hw) as [f Hf]. exists f.
    split; [exact Hf | now apply decode_first_word].
  - destruct (float_of_word16_ok _ (masked_is_word16 w)) as [f Hf]. exists f.
    split; [exact Hf | now apply decode_masked_word].
  - repeat split.
Qed.

Lemma decode_int16_uint16_witness :
  word16 0xFFFF /\
  _decode_vals [0xFFFF] "int16" true 0.1 = Ok (65535, 6553.5%float).
Proof.
  assert (Hw : word16 0xFFFF) by (unfold word16; lia).
  split; [exact Hw|].
  destruct (decode_int16_uint16 0xFFFF [] true 0.1 Hw) as [_ [_ [H _]]].
  exact H.
Defined.

(** C3 as stated fails: with format int16 and signed=true the word 0xFFFF
    does not decode to raw -1. *)
Lemma decode_int16_signed_counterexample :
  ~ (exists v, _decode_vals [0xFFFF] "int16" true 0.1 = Ok (-1, v)).
Proof. intros [v H]. vm_compute in H. discriminate H. Qed.

(** C8: the two big-endian words of a binary32 pattern [b] decode, with
    format float32, to raw [b] and to the product of the value of [b]
    and the scale; the same words in exchanged order decode with format
    float32_swapped to the same pair. *)
Theorem decode_float32_round_trip (b : Z) (signed : bool) (s : float) :
  0 <= b < 2 ^ 32 ->
  let msw := Z.shiftr b 16 in
  let lsw := Z.land b 0xFFFF in
  _decode_vals [msw; lsw] "float32" signed s
  = Ok (b, (float_of_bits32 b * s)%float) /\
  _decode_vals [lsw; msw] "float32_swapped" signed s
  = _decode_vals [msw; lsw] "float32" signed s.
Proof.
  intros Hb msw lsw. split; [|apply decode_swapped].
  rewrite decode_word_pair. unfold msw, lsw.
  now rewrite (words_reassemble b Hb).
Qed.

Lemma decode_float32_round_trip_witness :
  _decode_vals [0x41BC; 0] "float32" false 2 = Ok (0x41BC0000, 47%float) /\
  _decode_vals [0; 0x41BC] "float32_swapped" false 2 = Ok (0x41BC0000, 47%float).
Proof.
  assert (Hb : 0 <= 0x41BC0000 < 2 ^ 32) by lia.
  destruct (decode_float32_round_trip 0x41BC0000 false 2 Hb) as [H1 H2].
  split; [exact H1 | exact (eq_trans H2 H1)].
Defined.

(** C9: on a word sequence of the length the format calls for, the
    decoder returns a pair for every format string, and the pair is the
    one the format calls for: for uint16 the first word masked to 16
    bits, for the float formats the 32-bit pattern of the two words and
    its binary32 value, and for int16 and every format string the
    decoder does not know the first word itself; the scaled value is the
    float of the raw value (the binary32 value for the float formats)
    times the scale.  A format string the decoder does not know is
    decoded as int16. *)
Theorem decode_total (vals : list Z) (fmt : string) (signed : bool) (scale : float) :
  List.length vals = format_qty fmt ->
  Forall word16 vals ->
  (exists raw f,
     _decode_vals vals fmt signed scale = Ok (raw, (f * scale)%float) /\
     (fmt <> "uint16" -> fmt <> "float32" -> fmt <> "float32_swapped" ->
      nth_error vals 0 = Some raw /\ float_of_int raw = Ok f) /\
     (fmt = "uint16" ->
      exists w, nth_error vals 0 = Some w /\ raw = Z.land w 0xFFFF /\
                float_of_int raw = Ok f) /\
     (fmt = "float32" ->
      exists w0 w1, vals = [w0; w1] /\
        raw = Z.lor (Z.shiftl (Z.land w0 0xFFFF) 16) (Z.land w1 0xFFFF) /\
        f = float_of_bits32 raw) /\
     (fmt = "float32_swapped" ->
      exists w0 w1, vals = [w0; w1] /\
        raw = Z.lor (Z.shiftl (Z.land w1 0xFFFF) 16) (Z.land w0 0xFFFF) /\
        f = float_of_bits32 raw)) /\
  (fmt <> "int16" -> fmt <> "uint16" -> fmt <> "float32" ->
   fmt <> "float32_swapped" ->
   _decode_vals vals fmt signed scale = _decode_vals vals "int16" signed scale).
Proof.
  intros Hlen Hwords. split; [|apply decode_fallback].
  assert (Hfirst : exists w rest, vals = w :: rest /\ word16 w).
  { destruct vals as [|w rest].
    - unfold format_qty in Hlen. destruct (startswith fmt "float32"); discriminate.
    - exists w, rest. split; [reflexivity | now inversion Hwords]. }
  destruct Hfirst as (w & rest & -> & Hw).
  destruct (float_of_word16_ok w Hw) as [f Hf].
  destruct (String.eqb_spec fmt "int16") as [->|N1].
  { exists w, f. split; [exact (decode_first_word _ _ _ _ _ Hf)|].
    split; [now intros _ _ _|]. repeat split; discriminate. }
  destruct (String.eqb_spec fmt "uint16") as [->|N2].
  { destruct (float_of_word16_ok _ (masked_is_word16 w)) as [g Hg].
    exists (Z.land w 0xFFFF), g.
    split; [exact (decode_masked_word _ _ _ _ _ Hg)|].
    split; [now intros N|].
    split; [intros _; now exists w|]. split; discriminate. }
  destruct (String.eqb_spec fmt "float32") as [->|N3].
  { destruct rest as [|w1 [|w2 rest]]; try discriminate Hlen.
    eexists _, _. split; [apply decode_word_pair|].
    split; [now intros _ N|]. split; [discriminate|].
    split; [intros _; now exists w, w1 | discriminate]. }
  destruct (String.eqb_spec fmt "float32_swapped") as [->|N4].
  { destruct rest as [|w1 [|w2 rest]]; try discriminate Hlen.
    eexists _, _. split; [rewrite decode_swapped; apply decode_word_pair|].
    split; [now intros _ _ N|]. split; [discriminate|].
    split; [discriminate | intros _; now exists w, w1]. }
  exists w, f.
  split; [rewrite decode_fallback by assumption;
          exact (decode_first_word _ _ _ _ _ Hf)|].
  split; [now intros _ _ _|].
  repeat split; intros E; now rewrite E in *.
Qed.

Lemma decode_total_witness :
  _decode_vals [7] "bcd" false 0.5 = Ok (7, 3.5%float) /\
  _decode_vals [7] "bcd" false 0.5 = _decode_vals [7] "int16" false 0.5.
Proof.
  assert (Hlen : List.length [7] = format_qty "bcd") by reflexivity.
  assert (Hw : Forall word16 [7]).
  { constructor; [unfold word16; lia | constructor]. }
  destruct (decode_total [7] "bcd" false 0.5 Hlen Hw) as [H1 H2].
  split; [|apply H2; discriminate].
  destruct H1 as (raw & f & Hdec & Hfall & _).
  destruct Hfall as [Hraw Hf]; try discriminate.
  injection Hraw as <-. vm_compute in Hf. injection Hf as <-.
  exact Hdec.
Defined.

(** ** The sensor poller *)

Ltac run_monad :=
  unfold poll_primary, poll_humidity, read_registers, try_except, bind,
    read, assign, emit, lift, ret, raise;
  cbn.

Lemma builtin_raises_exception :
  (forall vals i e, index vals i = Raise e -> is_Exception e = true) /\
  (forall z e, float_of_int z = Raise e -> is_Exception e = true) /\
  (forall x e, struct_pack_I x = Raise e -> is_Exception e = true) /\
  (forall bs e, struct_unpack_f bs = Raise e -> is_Exception e = true).
Proof.
  repeat split.
  - intros vals i e. unfold index. destruct (nth_error vals i); [discriminate|].
    now intros [= <-].
  - intros z e. unfold float_of_int.
    destruct (is_infinity _); [|discriminate]. now intros [= <-].
  - intros x e. unfold struct_pack_I.
    destruct (_ && _); [discriminate|]. now intros [= <-].
  - intros bs e. unfold struct_unpack_f.
    destruct bs as [|? [|? [|? [|? [|? ?]]]]]; try discriminate; now intros [= <-].
Qed.

Ltac step_rbind H :=
  match type of H with
  | rbind ?r _ = Raise _ =>
      let E := fresh "E" in destruct r eqn:E; cbn [rbind] in H
  | (if ?c then _ else _) = Raise _ => destruct c
  | Raise _ = Raise _ => injection H as <-
  | Ok _ = Raise _ => discriminate H
  end.

Lemma decode_raises_exception vals fmt signed scale e :
  _decode_vals vals fmt signed scale = Raise e -> is_Exception e = true.
Proof.
  destruct builtin_raises_exception as (Hi & Hf & Hp & Hu).
  unfold _decode_vals. intros H. repeat step_rbind H; eauto.
Qed.

(** [poll_primary] in closed form. *)
Lemma poll_primary_spec (w : World) (now : float) (m : Machine) :
  poll_primary w now m =
  let g := globals m in
  let tr := trace m ++ request g (_reg_addr g) (_qty g) (_signed g) in
  match primary_reading w g with
  | Ok rv =>
      ({| globals :=
            set_last_ts now
              (set_last_ok true
                 (set_last_value (Some (snd rv))
                    (set_last_raw (Some (fst rv)) g)));
          trace := tr |}, Ok tt)
  | Raise e =>
      if is_Exception e
      then ({| globals := set_last_ok false (set_err_count (_err_count g + 1) g);
               trace := tr |}, Ok tt)
      else ({| globals := g; trace := tr |}, Raise e)
  end.
Proof.
  destruct m as [g tr0]. unfold primary_reading, request. run_monad.
  destruct (_serial g); cbn.
  - destruct (primary_response w) as [vals|e]; cbn.
    + destruct (_decode_vals vals (_format g) (_signed g) (_scale g)) as [rv|e];
        cbn; [reflexivity|]. now destruct (is_Exception e).
    + now destruct (is_Exception e).
  - now rewrite app_nil_r.
Qed.

(** [poll_humidity] in closed form. *)
Lemma poll_humidity_spec (w : World) (m : Machine) :
  poll_humidity w m =
  let g := globals m in
  if _hum_enable g then
    let tr := trace m ++ request g (_hum_reg g) (_hum_qty g) (_hum_signed g) in
    match humidity_reading w g with
    | Ok rv =>
        ({| globals :=
              set_last_hum_ok true
                (set_last_hum (Some (snd rv))
                   (set_last_hum_raw (Some (fst rv)) g));
            trace := tr |}, Ok tt)
    | Raise e =>
        if is_Exception e
        then ({| globals := set_last_hum_ok false g; trace := tr |}, Ok tt)
        else ({| globals := g; trace := tr |}, Raise e)
    end
  else (m, Ok tt).
Proof.
  destruct m as [g tr0]. unfold humidity_reading, request. run_monad.
  destruct (_hum_enable g); [cbn|reflexivity].
  destruct (_serial g) eqn:Hserial; cbn; rewrite ?Hserial; cbn.
  - destruct (humidity_response w) as [vals|e]; cbn.
    + destruct (_decode_vals vals (_hum_format g) (_hum_signed g) (_hum_scale g))
        as [rv|e]; cbn; [reflexivity|]. now destruct (is_Exception e).
    + now destruct (is_Exception e).
  - now rewrite app_nil_r.
Qed.

(** A call of [process] on an enabled poller: nothing before the poll is
    due, else the schedule moves on and the two channels are polled. *)
Lemma process_enabled (w : World) (s : State) (tr : list event) :
  _enabled s = true ->
  process w {| globals := s; trace := tr |} =
  if due w s then
    let now := RS485.monotonic w in
    bind (poll_primary w now) (fun _ => poll_humidity w)
      {| globals := set_next_poll (now + _poll_s s)%float s; trace := tr |}
  else ({| globals := s; trace := tr |}, Ok tt).
Proof.
  intros Hen. unfold process, due, bind at 1, read at 1. cbn. rewrite Hen. cbn.
  unfold bind at 1, read at 1. cbn.
  destruct (RS485.monotonic w <? _next_poll s)%float; reflexivity.
Qed.

(** The globals after a due call of [process], in closed form. *)
Lemma step_closed_form (w : World) (s : State) :
  _enabled s = true -> due w s = true ->
  step w s =
  let now := RS485.monotonic w in
  let s1 := set_next_poll (now + _poll_s s)%float s in
  if interrupted (primary_reading w s) then s1
  else
    let s2 := store_primary now (primary_reading w s) s1 in
    if _hum_enable s && negb (interrupted (humidity_reading w s))
    then store_humidity (humidity_reading w s) s2
    else s2.
Proof.
  intros Hen Hdue. unfold step, run. rewrite process_enabled, Hdue by exact Hen.
  unfold bind. rewrite poll_primary_spec. cbv zeta. cbn [globals trace].
  change (primary_reading w (set_next_poll _ s)) with (primary_reading w s).
  destruct (primary_reading w s) as [rv|e]; cbn [interrupted];
    [|destruct (is_Exception e); cbn [negb]; [|reflexivity]];
    cbv beta iota; rewrite poll_humidity_spec; cbv zeta; cbn [globals trace];
    unfold store_primary;
    match goal with
    | |- context [humidity_reading w ?g] =>
        change (humidity_reading w g) with (humidity_reading w s);
        change (_hum_enable g) with (_hum_enable s)
    end;
    (destruct (_hum_enable s); [|reflexivity]);
    (destruct (humidity_reading w s) as [hv|e']; [reflexivity|]);
    cbn [interrupted]; now destruct (is_Exception e').
Qed.

Lemma step_idle (w : World) (s : State) :
  _enabled s = true -> due w s = false ->
  step w s = s /\ events w s = [] /\ outcome w s = Ok tt.
Proof.
  intros Hen Hdue. unfold step, events, outcome, run.
  now rewrite process_enabled, Hdue by exact Hen.
Qed.

Lemma primary_reading_raised (w : World) (s : State) :
  raised (primary_response w) = true ->
  exists e, primary_reading w s = Raise e /\ is_Exception e = true.
Proof.
  unfold primary_reading. intros Hr. destruct (_serial s).
  - destruct (primary_response w) as [vals|e]; [discriminate|].
    now exists e.
  - now exists AttributeError.
Qed.

Lemma humidity_reading_raised (w : World) (s : State) :
  raised (humidity_response w) = true ->
  exists e, humidity_reading w s = Raise e /\ is_Exception e = true.
Proof.
  unfold humidity_reading. intros Hr. destruct (_serial s).
  - destruct (humidity_response w) as [vals|e]; [discriminate|].
    now exists e.
  - now exists AttributeError.
Qed.

Lemma primary_reading_not_interrupted (w : World) (s : State) :
  primary_response w <> Raise KeyboardInterrupt ->
  interrupted (primary_reading w s) = false.
Proof.
  unfold primary_reading. intros Hr. destruct (_serial s); [|reflexivity].
  destruct (primary_response w) as [vals|e]; cbn.
  - destruct (_decode_vals _ _ _ _) as [rv|e] eqn:Hd; [reflexivity|].
    cbn. now rewrite (decode_raises_exception _ _ _ _ _ Hd).
  - destruct e; try reflexivity. now destruct Hr.
Qed.

Lemma step_keeps_enabled (w : World) (s : State) :
  _enabled s = true -> _enabled (step w s) = true.
Proof.
  intros Hen. destruct (due w s) eqn:Hdue.
  - rewrite step_closed_form by assumption. cbv zeta.
    destruct (interrupted (primary_reading w s)); [exact Hen|].
    destruct (_hum_enable s && negb (interrupted (humidity_reading w s)));
      destruct (primary_reading w s), (humidity_reading w s); exact Hen.
  - now rewrite (proj1 (step_idle w s Hen Hdue)).
Qed.

(** C5: an enabled poller does nothing before the next poll is due; when
    the poll is due the next due time becomes now + interval whatever the
    reads do.  With an interval of 2.0 and a poll at time 0 the next due
    time is 2.0, and a call at time 1.0 reads nothing. *)
Theorem poll_schedule (w : World) (s : State) :
  _enabled s = true ->
  (due w s = false ->
     step w s = s /\ events w s = [] /\ outcome w s = Ok tt) /\
  (due w s = true ->
     _next_poll (step w s) = (RS485.monotonic w + _poll_s s)%float) /\
  (due w s = true -> RS485.monotonic w = 0%float -> _poll_s s = 2%float ->
     _next_poll (step w s) = 2%float /\
     forall w1, RS485.monotonic w1 = 1%float ->
       events w1 (step w s) = [] /\ step w1 (step w s) = step w s).
Proof.
  intros Hen.
  assert (Hnext : due w s = true ->
            _next_poll (step w s) = (RS485.monotonic w + _poll_s s)%float).
  { intros Hdue. rewrite step_closed_form by assumption. cbv zeta.
    destruct (interrupted (primary_reading w s)); [reflexivity|].
    destruct (_hum_enable s && negb (interrupted (humidity_reading w s)));
      destruct (primary_reading w s), (humidity_reading w s); reflexivity. }
  split; [now apply step_idle|]. split; [exact Hnext|].
  intros Hdue Hnow Hint. specialize (Hnext Hdue). rewrite Hnow, Hint in Hnext.
  split; [exact Hnext|]. intros w1 Hw1.
  assert (Hidle : due w1 (step w s) = false).
  { unfold due. now rewrite Hnext, Hw1. }
  pose proof (step_idle w1 _ (step_keeps_enabled w s Hen) Hidle) as (H1 & H2 & _).
  now split.
Qed.

Lemma poll_schedule_witness :
  _next_poll (step (Sample.world 0 (Ok tt) (Raise OSError) (Ok [612])) Sample.active)
  = 2%float /\
  events (Sample.world 1 (Ok tt) (Ok [235]) (Ok [612]))
    (step (Sample.world 0 (Ok tt) (Raise OSError) (Ok [612])) Sample.active) = [].
Proof.
  assert (Hen : _enabled Sample.active = true) by (vm_compute; reflexivity).
  destruct (poll_schedule (Sample.world 0 (Ok tt) (Raise OSError) (Ok [612]))
              Sample.active Hen) as (_ & _ & H).
  destruct H as [Hnext Hidle]; [vm_compute; reflexivity ..|].
  split; [exact Hnext|].
  exact (proj1 (Hidle (Sample.world 1 (Ok tt) (Ok [235]) (Ok [612])) eq_refl)).
Defined.

(** C4: when the primary read of a poll fails, the error count grows by
    one, the primary ok flag is cleared, and the stored primary raw
    value, scaled value and timestamp stay.  The humidity reading after
    the step is the same whatever the primary read does, and the primary
    ok flag is the same whatever the humidity read does. *)
Theorem primary_failure_isolated (w : World) (s : State) :
  _enabled s = true -> due w s = true ->
  (raised (primary_response w) = true ->
     _err_count (step w s) = _err_count s + 1 /\
     _last_ok (step w s) = false /\
     _last_raw (step w s) = _last_raw s /\
     _last_value (step w s) = _last_value s /\
     _last_ts (step w s) = _last_ts s) /\
  (forall r, primary_response w <> Raise KeyboardInterrupt ->
     r <> Raise KeyboardInterrupt ->
     _last_hum (step (with_primary r w) s) = _last_hum (step w s) /\
     _last_hum_raw (step (with_primary r w) s) = _last_hum_raw (step w s) /\
     _last_hum_ok (step (with_primary r w) s) = _last_hum_ok (step w s)) /\
  (forall r, _last_ok (step (with_humidity r w) s) = _last_ok (step w s)).
Proof.
  intros Hen Hdue. split; [|split].
  - intros Hfail. destruct (primary_reading_raised w s Hfail) as (e & He & Hex).
    rewrite step_closed_form by assumption. cbv zeta.
    rewrite He. cbn [interrupted]. rewrite Hex. cbn [negb store_primary].
    destruct (_hum_enable s && negb (interrupted (humidity_reading w s)));
      [destruct (humidity_reading w s)|]; repeat split.
  - intros r Hw Hr.
    rewrite !step_closed_form by assumption. cbv zeta.
    rewrite (primary_reading_not_interrupted w s Hw).
    rewrite (primary_reading_not_interrupted (with_primary r w) s Hr).
    change (humidity_reading (with_primary r w) s) with (humidity_reading w s).
    destruct (_hum_enable s && negb (interrupted (humidity_reading w s)));
      [destruct (humidity_reading w s)|];
      destruct (primary_reading w s), (primary_reading (with_primary r w) s);
      repeat split.
  - intros r. rewrite !step_closed_form by assumption. cbv zeta.
    change (primary_reading (with_humidity r w) s) with (primary_reading w s).
    change (RS485.monotonic (with_humidity r w)) with (RS485.monotonic w).
    destruct (interrupted (primary_reading w s)); [reflexivity|].
    generalize (store_primary (RS485.monotonic w) (primary_reading w s)
                  (set_next_poll (RS485.monotonic w + _poll_s s) s)).
    intros g.
    assert (Hframe : forall hr, _last_ok (store_humidity hr g) = _last_ok g)
      by (now intros [hv|e]).
    destruct (_hum_enable s && negb (interrupted (humidity_reading w s)));
      destruct (_hum_enable s &&
                negb (interrupted (humidity_reading (with_humidity r w) s)));
      now rewrite ?Hframe.
Qed.

Lemma primary_failure_isolated_witness :
  (_err_count (step Sample.primary_down Sample.polled)
   = _err_count Sample.polled + 1 /\
   _last_ok (step Sample.primary_down Sample.polled) = false /\
   _last_raw (step Sample.primary_down Sample.polled) = _last_raw Sample.polled /\
   _last_value (step Sample.primary_down Sample.polled)
   = _last_value Sample.polled /\
   _last_ts (step Sample.primary_down Sample.polled) = _last_ts Sample.polled) /\
  _last_raw Sample.polled = Some 235.
Proof.
  assert (Hen : _enabled Sample.polled = true) by (vm_compute; reflexivity).
  assert (Hdue : due Sample.primary_down Sample.polled = true)
    by (vm_compute; reflexivity).
  assert (Hfail : raised (primary_response Sample.primary_down) = true)
    by reflexivity.
  split.
  - exact (proj1 (primary_failure_isolated _ _ Hen Hdue) Hfail).
  - vm_compute. reflexivity.
Defined.

Lemma get_status_errors (s : State) (d : value) :
  get_status s = Ok d ->
  get "errors" d = Some (VInt (_err_count s)) /\
  exists h, get "humidity" d = Some h /\ ~ In "errors" (keys h).
Proof.
  unfold get_status.
  destruct (float_truthy (_last_ts s));
    [destruct (int_of_float (_last_ts s)) as [n|e]; [|discriminate]|];
    cbn [rbind]; intros [= <-];
    (split; [reflexivity|]); eexists; (split; [reflexivity|]);
    cbn; intuition discriminate.
Qed.

(** C10: when the humidity read of a poll fails, only the humidity ok
    flag is touched: the stored humidity raw and scaled values stay, and
    the error count moves only with the primary read of that poll.  The
    status document shows that count under "errors"; its humidity object
    has no such entry. *)
Theorem humidity_failure_frame (w : World) (s : State) :
  _enabled s = true -> due w s = true ->
  primary_response w <> Raise KeyboardInterrupt ->
  _hum_enable s = true ->
  raised (humidity_response w) = true ->
  step w s
  = set_last_hum_ok false
      (store_primary (RS485.monotonic w) (primary_reading w s)
         (set_next_poll (RS485.monotonic w + _poll_s s)%float s)) /\
  _last_hum_ok (step w s) = false /\
  _last_hum (step w s) = _last_hum s /\
  _last_hum_raw (step w s) = _last_hum_raw s /\
  _err_count (step w s) = _err_count s + (if _last_ok (step w s) then 0 else 1) /\
  (forall d, get_status (step w s) = Ok d ->
     get "errors" d = Some (VInt (_err_count (step w s))) /\
     exists h, get "humidity" d = Some h /\ ~ In "errors" (keys h)).
Proof.
  intros Hen Hdue Hprim Hhum Hfail.
  destruct (humidity_reading_raised w s Hfail) as (e & He & Hex).
  assert (Hstep : step w s
            = set_last_hum_ok false
                (store_primary (RS485.monotonic w) (primary_reading w s)
                   (set_next_poll (RS485.monotonic w + _poll_s s)%float s))).
  { rewrite step_closed_form by assumption. cbv zeta.
    rewrite (primary_reading_not_interrupted w s Hprim), Hhum, He.
    cbn [interrupted store_humidity]. now rewrite Hex. }
  split; [exact Hstep|].
  split; [|split; [|split; [|split]]]; try apply get_status_errors;
    rewrite Hstep; destruct (primary_reading w s) as [rv|e']; try reflexivity.
  - change (_err_count s = _err_count s + 0). now rewrite Z.add_0_r.
Qed.

Lemma humidity_failure_frame_witness :
  _last_hum_ok (step Sample.humidity_down Sample.polled) = false /\
  _last_hum (step Sample.humidity_down Sample.polled) = _last_hum Sample.polled /\
  _last_hum_raw (step Sample.humidity_down Sample.polled)
  = _last_hum_raw Sample.polled /\
  _err_count (step Sample.humidity_down Sample.polled)
  = _err_count Sample.polled +
    (if _last_ok (step Sample.humidity_down Sample.polled) then 0 else 1).
Proof.
  assert (Hen : _enabled Sample.polled = true) by (vm_compute; reflexivity).
  assert (Hdue : due Sample.humidity_down Sample.polled = true)
    by (vm_compute; reflexivity).
  assert (Hprim : primary_response Sample.humidity_down <> Raise KeyboardInterrupt)
    by discriminate.
  assert (Hhum : _hum_enable Sample.polled = true) by (vm_compute; reflexivity).
  assert (Hfail : raised (humidity_response Sample.humidity_down) = true)
    by reflexivity.
  destruct (humidity_failure_frame _ _ Hen Hdue Hprim Hhum Hfail)
    as (_ & H1 & H2 & H3 & H4 & _).
  exact (conj H1 (conj H2 (conj H3 H4))).
Defined.

(** An enabled poller without a transport: a call never tries to
    construct one; when the poll is due the read fails on the missing
    transport and is counted as a read error. *)
Lemma run_without_transport (w : World) (s : State) :
  _enabled s = true -> _serial s = None ->
  _enabled (step w s) = true /\ _serial (step w s) = None /\
  events w s = [] /\ outcome w s = Ok tt /\
  (due w s = true -> _err_count (step w s) = _err_count s + 1).
Proof.
  intros Hen Hser.
  assert (Hrun : run (process w) s =
            (if due w s
             then {| globals :=
                       (if _hum_enable s then set_last_hum_ok false else id)
                         (set_last_ok false
                            (set_err_count (_err_count s + 1)
                               (set_next_poll
                                  (RS485.monotonic w + _poll_s s)%float s)));
                     trace := [] |}
             else {| globals := s; trace := [] |}, Ok tt)).
  { unfold run. rewrite process_enabled by exact Hen.
    destruct (due w s); [|reflexivity].
    unfold bind. rewrite poll_primary_spec. cbv zeta. cbn [globals trace].
    unfold primary_reading, request.
    change (_serial (set_next_poll _ s)) with (_serial s). rewrite Hser.
    cbn [is_Exception]. cbv beta iota. rewrite poll_humidity_spec. cbv zeta.
    cbn [globals trace]. unfold humidity_reading, request.
    match goal with
    | |- context [_hum_enable ?g] =>
        change (_hum_enable g) with (_hum_enable s);
        change (_serial g) with (_serial s)
    end.
    rewrite Hser. now destruct (_hum_enable s). }
  unfold step, events, outcome. rewrite Hrun.
  destruct (due w s); cbn [fst snd globals trace].
  - destruct (_hum_enable s); repeat split; try assumption; reflexivity.
  - repeat split; try assumption. discriminate.
Qed.

Lemma stranded_forever (ws : list World) :
  forall s, _enabled s = true -> _serial s = None ->
  _enabled (steps ws s) = true /\ _serial (steps ws s) = None.
Proof.
  induction ws as [|w ws IH]; intros s Hen Hser; [now split|].
  destruct (run_without_transport w s Hen Hser) as (Hen' & Hser' & _ & Hout & _).
  cbn [steps]. rewrite Hout. now apply IH.
Qed.

(** C2, as the code has it: when the construction of the transport
    fails, [_init] leaves the poller enabled without a transport.  No
    later call constructs a transport, whatever the calls in between, and
    the next due poll counts a read error. *)
Theorem construction_failure_not_retried :
  events Sample.no_transport initial = [SerialOpen 9600] /\
  _enabled Sample.stranded = true /\
  _serial Sample.stranded = None /\
  _err_count Sample.stranded = 0 /\
  (forall ws w,
     _serial (steps ws Sample.stranded) = None /\
     events w (steps ws Sample.stranded) = []) /\
  _err_count (step (Sample.world 3 (Ok tt) (Ok [235]) (Ok [612])) Sample.stranded)
  = 1.
Proof.
  assert (Hen : _enabled Sample.stranded = true) by (vm_compute; reflexivity).
  assert (Hser : _serial Sample.stranded = None) by (vm_compute; reflexivity).
  split; [vm_compute; reflexivity|].
  split; [exact Hen|]. split; [exact Hser|].
  split; [vm_compute; reflexivity|].
  split; [|vm_compute; reflexivity].
  intros ws w. destruct (stranded_forever ws _ Hen Hser) as [Hen' Hser'].
  split; [exact Hser'|].
  now destruct (run_without_transport w _ Hen' Hser') as (_ & _ & Hev & _).
Qed.

(** ** The scheduler loop *)

Import Main.

Lemma after_modbus_schedule (t : Tick) (s : Main.State) :
  web_process t <> Raise KeyboardInterrupt ->
  sensor_process t <> Raise KeyboardInterrupt ->
  after_modbus t s
  = ([WebStep; SensorStep] ++ fst (heartbeat t s) ++ [Feed],
     Running (snd (heartbeat t s))).
Proof.
  intros Hweb Hsen. unfold after_modbus.
  destruct (web_process t) as [[]|[]]; try (now destruct Hweb);
    destruct (sensor_process t) as [[]|[]]; try (now destruct Hsen);
    now destruct (heartbeat t s).
Qed.

Lemma iteration_schedule (t : Tick) (s : Main.State) :
  no_interrupt t ->
  iteration t s = (schedule t s, Running (snd (heartbeat t s))).
Proof.
  intros (Hmod & Hweb & Hsen). unfold iteration, schedule.
  rewrite (after_modbus_schedule t s Hweb Hsen).
  destruct (modbus_process t) as [[]|[]]; try reflexivity. now destruct Hmod.
Qed.

Lemma schedule_steps (t : Tick) (s : Main.State) :
  filter is_step (schedule t s) = tick_steps.
Proof.
  unfold schedule, heartbeat.
  destruct (raised (modbus_process t)), (heartbeat_due t s); reflexivity.
Qed.

Lemma loop_runs (ticks : list Tick) :
  forall s, Forall no_interrupt ticks ->
  (exists s', snd (loop ticks s) = Running s') /\
  filter is_step (fst (loop ticks s))
  = List.concat (repeat tick_steps (List.length ticks)).
Proof.
  induction ticks as [|t ticks IH]; intros s Hall.
  - split; [now exists s | reflexivity].
  - inversion Hall as [|? ? Ht Hrest]; subst.
    cbn [loop]. rewrite (iteration_schedule t s Ht).
    destruct (IH (snd (heartbeat t s)) Hrest) as [[s' Hs'] Hsteps].
    destruct (loop ticks (snd (heartbeat t s))) as [evs st].
    cbn [fst snd] in *. split; [now exists s'|].
    rewrite filter_app, schedule_steps, Hsteps. reflexivity.
Qed.

(** C1, as the code has it: an iteration in which no step raises
    KeyboardInterrupt feeds the watchdog, runs the Modbus, Web and Sensor
    steps in this order, toggles the heartbeat and resets its timestamp
    when 0.5 s have passed, and feeds the watchdog again, whichever of
    the three steps raise an Exception; over any number of such
    iterations every one runs in full.  A KeyboardInterrupt raised by the
    Modbus step is caught and ends the loop. *)
Theorem scheduler_isolated :
  (forall t s, no_interrupt t ->
     iteration t s = (schedule t s, Running (snd (heartbeat t s))) /\
     filter is_step (schedule t s) = tick_steps /\
     heartbeat t s
     = if (0.5 <=? clock_check t - timestamp s)%float
       then ([LedToggle], {| timestamp := clock_stamp t; led := negb (led s) |})
       else ([], s)) /\
  (forall ticks s, Forall no_interrupt ticks ->
     (exists s', snd (loop ticks s) = Running s') /\
     filter is_step (fst (loop ticks s))
     = List.concat (repeat tick_steps (List.length ticks))) /\
  (forall t rest s, modbus_process t = Raise KeyboardInterrupt ->
     loop (t :: rest) s = ([Feed; ModbusStep; Print], Stopped)).
Proof.
  split; [|split].
  - intros t s Ht. split; [now apply iteration_schedule|].
    split; [apply schedule_steps | reflexivity].
  - intros ticks s. apply loop_runs.
  - intros t rest s Hint. cbn [loop]. unfold iteration. now rewrite Hint.
Qed.

Lemma scheduler_isolated_witness :
  iteration Sample.faulty_tick Sample.boot
  = ([Feed; ModbusStep; Print; WebStep; SensorStep; LedToggle; Feed],
     Running {| timestamp := 0.75; led := true |}).
Proof.
  assert (Hno : no_interrupt Sample.faulty_tick)
    by (repeat split; discriminate).
  destruct scheduler_isolated as [Htick _].
  destruct (Htick Sample.faulty_tick Sample.boot Hno) as [Hit _].
  exact Hit.
Defined.

(** C1 as stated fails: a KeyboardInterrupt raised in the Modbus step
    ends the iteration before the Web and Sensor steps, and no later
    iteration runs. *)
Lemma scheduler_interrupt_counterexample :
  ~ In WebStep (fst (iteration Sample.interrupted_tick Sample.boot)) /\
  ~ In SensorStep (fst (iteration Sample.interrupted_tick Sample.boot)) /\
  loop [Sample.interrupted_tick; Sample.faulty_tick] Sample.boot
  = ([Feed; ModbusStep; Print], Stopped).
Proof.
  repeat split; cbn; intuition discriminate.
Qed.

(** ** The status snapshot *)

Import WebStatus.

Ltac locals_reads :=
  repeat match goal with
    | |- context [rbind ?r _] =>
        destruct r; cbn [rbind]; try (intros; discriminate)
    end;
  intros [= <-]; reflexivity.

Ltac locals_start Hx :=
  unfold read_locals;
  cbn [hal modbus cpu_temperature WebStatus.monotonic sensor eth hostname
       with_hal with_modbus with_cpu_temperature with_eth with_supply
       with_voltage with_current pretty_mac pretty_ip link_status
       SUPPLY_VOLTAGE an_read_voltage_mv an_read_current_ua
       attempt];
  repeat match goal with
    | |- context [read_dins (?f ?a ?h)] =>
        change (read_dins (f a h)) with (read_dins h)
    | |- context [read_counters (?f ?a ?h)] =>
        change (read_counters (f a h)) with (read_counters h)
    | |- context [read_douts (?f ?a ?h)] =>
        change (read_douts (f a h)) with (read_douts h)
    end;
  rewrite ?Hx.

Section Degraded.

Variables (sys : System) (l : Locals) (x : exn).
Hypothesis raised_x : is_Exception x = true.
Hypothesis locals_ok : read_locals sys = Ok l.

Lemma locals_without_network (e : Eth) :
  eth (modbus sys) = Some e ->
  read_locals
    (with_eth {| pretty_mac := Raise x; pretty_ip := pretty_ip e;
                 link_status := link_status e |} sys) = Ok (without_mac l) /\
  read_locals
    (with_eth {| pretty_mac := pretty_mac e; pretty_ip := Raise x;
                 link_status := link_status e |} sys) = Ok (without_ip l) /\
  read_locals
    (with_eth {| pretty_mac := pretty_mac e; pretty_ip := pretty_ip e;
                 link_status := Raise x |} sys) = Ok (without_link l).
Proof using raised_x locals_ok.
  intros He. split; [|split]; revert locals_ok; locals_start raised_x;
    rewrite He; cbn [rbind]; locals_reads.
Qed.

Lemma locals_without_cpu_temp :
  read_locals (with_cpu_temperature (Raise x) sys) = Ok (without_cpu_temp l).
Proof using raised_x locals_ok.
  revert locals_ok. locals_start raised_x. cbn [rbind]. locals_reads.
Qed.

Lemma locals_without_supply :
  read_locals (with_hal (with_supply (Raise x) (hal sys)) sys)
  = Ok (without_supply l).
Proof using raised_x locals_ok.
  revert locals_ok. locals_start raised_x. cbn [rbind]. locals_reads.
Qed.

(** A pair of analog reads, one of which raises. *)
Lemma read_pair_failing (read : Z -> result Z) (ch : Z) (p : option Z * option Z) :
  ch = 0 \/ ch = 1 ->
  read_pair read = Ok p ->
  read_pair (failing_on ch x read) = Ok (None, None).
Proof using raised_x.
  unfold read_pair, failing_on. intros [-> | ->]; cbn [Z.eqb Pos.eqb rbind attempt].
  - now rewrite raised_x.
  - destruct (read 0) as [v0|e0]; cbn [rbind attempt]; rewrite ?raised_x;
      [reflexivity|].
    destruct (is_Exception e0); [reflexivity | discriminate].
Qed.

Lemma locals_without_analog (ch : Z) :
  ch = 0 \/ ch = 1 ->
  read_locals
    (with_hal
       (with_voltage (failing_on ch x (an_read_voltage_mv (hal sys))) (hal sys)) sys)
  = Ok (without_voltage l) /\
  read_locals
    (with_hal
       (with_current (failing_on ch x (an_read_current_ua (hal sys))) (hal sys)) sys)
  = Ok (without_current l).
Proof using raised_x locals_ok.
  intros Hch. split; revert locals_ok; locals_start raised_x.
  - destruct (read_pair (an_read_voltage_mv (hal sys))) as [p|e] eqn:Hp.
    + rewrite (read_pair_failing _ ch p Hch Hp). locals_reads.
    + intros H. exfalso. revert H. locals_reads.
  - destruct (read_pair (an_read_current_ua (hal sys))) as [p|e] eqn:Hp.
    + rewrite (read_pair_failing _ ch p Hch Hp). locals_reads.
    + intros H. exfalso. revert H. locals_reads.
Qed.

End Degraded.




(** ** The output toggle routes *)

Lemma get_set_dout (o : output) (v : bool) (h : Hal) :
  get_dout o (set_dout o v h) = Ok v.
Proof. now destruct o. Qed.

Lemma set_dout_back (o : output) (v w : bool) (h : Hal) :
  get_dout o h = Ok v -> set_dout o v (set_dout o w h) = h.
Proof. destruct h, o; cbn; now intros ->. Qed.

(** One invocation of a toggle route when the pin can be read and its
    coil is registered. *)
Lemma toggle_once (o : output) (sys : System) (v : bool) (c : Z) :
  get_dout o (hal sys) = Ok v ->
  coils (modbus sys) !! DO_ADD o (modbus sys) = Some c ->
  let sys' := fst (toggle o sys) in
  hal sys' = set_dout o (negb v) (hal sys) /\
  DO_ADD o (modbus sys') = DO_ADD o (modbus sys) /\
  coils (modbus sys') = <[DO_ADD o (modbus sys) := Z.b2z (negb v)]> (coils (modbus sys)) /\
  snd (toggle o sys) = Ok redirect.
Proof.
  intros Hpin Hcoil. unfold toggle. rewrite Hpin.
  cbn [modbus with_hal hal]. unfold set_coil. rewrite Hcoil.
  cbn [fst snd with_modbus with_hal hal modbus coils].
  destruct v, o; repeat split.
Qed.

(** C7: with the pin readable and its coil registered, a toggle route
    writes the negated output state to the HAL and mirrors it into the
    coil; after each of two invocations in a row the coil equals the
    output state, and after the second the HAL is as it was. *)
Theorem toggle_twice (o : output) (sys : System) (v : bool) (c : Z) :
  get_dout o (hal sys) = Ok v ->
  coils (modbus sys) !! DO_ADD o (modbus sys) = Some c ->
  let once := fst (toggle o sys) in
  let twice := fst (toggle o once) in
  get_dout o (hal once) = Ok (negb v) /\
  coils (modbus once) !! DO_ADD o (modbus once) = Some (Z.b2z (negb v)) /\
  get_dout o (hal twice) = Ok v /\
  coils (modbus twice) !! DO_ADD o (modbus twice) = Some (Z.b2z v) /\
  hal twice = hal sys /\
  snd (toggle o sys) = Ok redirect /\
  snd (toggle o once) = Ok redirect.
Proof.
  intros Hpin Hcoil once twice.
  destruct (toggle_once o sys v c Hpin Hcoil) as (Hhal & Hadd & Hcoils & Hres).
  fold once in Hhal, Hadd, Hcoils.
  assert (Hpin1 : get_dout o (hal once) = Ok (negb v)).
  { rewrite Hhal. apply get_set_dout. }
  assert (Hcoil1 : coils (modbus once) !! DO_ADD o (modbus once)
                   = Some (Z.b2z (negb v))).
  { rewrite Hadd, Hcoils. apply lookup_insert_eq. }
  destruct (toggle_once o once _ _ Hpin1 Hcoil1) as (Hhal2 & Hadd2 & Hcoils2 & Hres2).
  fold twice in Hhal2, Hadd2, Hcoils2. rewrite negb_involutive in Hhal2, Hcoils2.
  split; [exact Hpin1|]. split; [exact Hcoil1|].
  split; [rewrite Hhal2; apply get_set_dout|].
  split; [rewrite Hadd2, Hcoils2; apply lookup_insert_eq|].
  split; [rewrite Hhal2, Hhal; now apply set_dout_back|].
  split; assumption.
Qed.

Lemma toggle_twice_witness :
  get_dout DO0 (hal (fst (do0_toggle Sample.board))) = Ok false /\
  hal (fst (do0_toggle (fst (do0_toggle Sample.board)))) = hal Sample.board.
Proof.
  assert (Hpin : get_dout DO0 (hal Sample.board) = Ok true) by reflexivity.
  assert (Hcoil : coils (modbus Sample.board) !! DO_ADD DO0 (modbus Sample.board)
                  = Some 1) by (vm_compute; reflexivity).
  destruct (toggle_twice DO0 Sample.board true 1 Hpin Hcoil)
    as (H1 & _ & _ & _ & H5 & _).
  split; [exact H1 | exact H5].
Defined.

(** * Further properties of the code *)

(** ** The register decoder: edge behaviour *)

(** X1: a word sequence that is too short makes the decoder raise
    IndexError: the empty sequence for every format string, a single
    word for the two float formats. *)
Theorem decode_short_input :
  (forall fmt signed scale, _decode_vals [] fmt signed scale = Raise IndexError) /\
  (forall w signed scale,
     _decode_vals [w] "float32" signed scale = Raise IndexError /\
     _decode_vals [w] "float32_swapped" signed scale = Raise IndexError).
Proof.
  split; [|now split].
  intros fmt signed scale. unfold _decode_vals.
  destruct (String.eqb fmt "int16"); [reflexivity|].
  destruct (String.eqb fmt "uint16"); [reflexivity|].
  destruct (String.eqb fmt "float32"); [reflexivity|].
  now destruct (String.eqb fmt "float32_swapped").
Qed.

Lemma format_qty_one (fmt : string) :
  format_qty fmt = 1%nat -> fmt <> "float32" /\ fmt <> "float32_swapped".
Proof. intros H. split; intros ->; discriminate H. Qed.

(** X2: the decoder looks at no more words than the format calls for:
    words after the second never matter, and for a format of one word
    the words after the first do not matter. *)
Theorem decode_ignores_rest (fmt : string) (signed : bool) (scale : float) :
  (forall w0 w1 rest,
     _decode_vals (w0 :: w1 :: rest) fmt signed scale
     = _decode_vals [w0; w1] fmt signed scale) /\
  (format_qty fmt = 1%nat ->
   forall w rest,
     _decode_vals (w :: rest) fmt signed scale = _decode_vals [w] fmt signed scale).
Proof.
  split.
  - intros w0 w1 rest. unfold _decode_vals.
    destruct (String.eqb fmt "int16"); [reflexivity|].
    destruct (String.eqb fmt "uint16"); [reflexivity|].
    destruct (String.eqb fmt "float32"); [reflexivity|].
    now destruct (String.eqb fmt "float32_swapped").
  - intros Hq w rest. destruct (format_qty_one fmt Hq) as [N3 N4].
    apply String.eqb_neq in N3, N4. unfold _decode_vals. rewrite N3, N4.
    destruct (String.eqb fmt "int16"); [reflexivity|].
    now destruct (String.eqb fmt "uint16").
Qed.

Lemma decode_ignores_rest_witness :
  _decode_vals [235; 612; 7] "int16" false 0.1 = _decode_vals [235] "int16" false 0.1.
Proof.
  exact (proj2 (decode_ignores_rest "int16" false 0.1) eq_refl 235 [612; 7]).
Defined.

(** X3: what the decoder returns as raw value: an unsigned 16-bit number
    for uint16, an unsigned 32-bit number for the two float formats, and
    the first word itself for int16 and for every unknown format. *)
Theorem decode_raw_range (vals : list Z) (fmt : string) (signed : bool)
    (scale : float) (raw : Z) (scaled : float) :
  _decode_vals vals fmt signed scale = Ok (raw, scaled) ->
  (fmt = "uint16" -> 0 <= raw <= 65535) /\
  (fmt = "float32" \/ fmt = "float32_swapped" -> 0 <= raw < 2 ^ 32) /\
  (fmt <> "uint16" -> fmt <> "float32" -> fmt <> "float32_swapped" ->
   nth_error vals 0 = Some raw).
Proof.
  intros H. split; [|split].
  - intros ->. destruct vals as [|w rest]; [discriminate H|].
    cbn in H. destruct (float_of_int (Z.land w 65535)); [|discriminate H].
    injection H as <- _. pose proof (mask16_range w). lia.
  - intros Hf. destruct vals as [|w0 [|w1 rest]];
      try (destruct Hf as [-> | ->]; discriminate H).
    assert (Hraw : raw = Z.lor (Z.shiftl (Z.land w0 65535) 16) (Z.land w1 65535)
                   \/ raw = Z.lor (Z.shiftl (Z.land w1 65535) 16) (Z.land w0 65535)).
    { destruct Hf as [-> | ->].
      - left. rewrite decode_word_pair in H. cbv zeta in H.
        revert H. generalize (float_of_bits32
          (Z.lor (Z.shiftl (Z.land w0 65535) 16) (Z.land w1 65535))).
        intros f H. now inversion H.
      - right. rewrite decode_swapped, decode_word_pair in H. cbv zeta in H.
        revert H. generalize (float_of_bits32
          (Z.lor (Z.shiftl (Z.land w1 65535) 16) (Z.land w0 65535))).
        intros f H. now inversion H. }
    destruct Hraw as [-> | ->]; apply word_pair_range.
  - intros N2 N3 N4. apply String.eqb_neq in N2, N3, N4.
    unfold _decode_vals in H. rewrite N2, N3, N4 in H.
    destruct vals as [|w rest];
      [now destruct (String.eqb fmt "int16")|].
    cbn [index nth_error rbind] in H.
    destruct (float_of_int w); [|now destruct (String.eqb fmt "int16")].
    cbn [rbind] in H.
    destruct (String.eqb fmt "int16"); now injection H as <- _.
Qed.

Lemma decode_raw_range_witness :
  0 <= 65535 <= 65535 /\
  _decode_vals [-1] "uint16" true 0.1 = Ok (65535, 6553.5%float).
Proof.
  assert (H : _decode_vals [-1] "uint16" true 0.1 = Ok (65535, 6553.5%float))
    by reflexivity.
  split; [|exact H].
  exact (proj1 (decode_raw_range _ _ _ _ _ _ H) eq_refl).
Defined.

(** X4: int16 and uint16 differ only on words the transport delivered as
    negative numbers: on a word from 0 to 65535 they decode alike, and
    on a word from -32768 to -1 uint16 gives back the word on the wire,
    65536 more. *)
Theorem decode_signed_unsigned (w : Z) (rest : list Z) (signed : bool)
    (scale : float) :
  (0 <= w <= 65535 ->
   _decode_vals (w :: rest) "uint16" signed scale
   = _decode_vals (w :: rest) "int16" signed scale) /\
  (-32768 <= w < 0 ->
   exists scaled,
     _decode_vals (w :: rest) "uint16" signed scale = Ok (w + 65536, scaled)).
Proof.
  assert (Hland : Z.land w 65535 = w mod 65536).
  { change 65535 with (Z.ones 16). now rewrite Z.land_ones by lia. }
  split; intros Hw.
  - assert (Hm : Z.land w 65535 = w) by (rewrite Hland; apply Z.mod_small; lia).
    cbn. cbn in Hm. now rewrite Hm.
  - assert (Hm : Z.land w 65535 = w + 65536).
    { rewrite Hland. symmetry. apply (Z.mod_unique w 65536 (-1)); lia. }
    destruct (float_of_word16_ok _ (masked_is_word16 w)) as [f Hf].
    exists (f * scale)%float.
    rewrite (decode_masked_word _ _ _ _ _ Hf). cbn in Hm |- *. now rewrite Hm.
Qed.

Lemma decode_signed_unsigned_witness :
  exists scaled, _decode_vals [-2] "uint16" true 1 = Ok (65534, scaled).
Proof.
  assert (Hw : -32768 <= -2 < 0) by lia.
  exact (proj2 (decode_signed_unsigned (-2) [] true 1) Hw).
Defined.

(** ** _parse_bool *)

Lemma upper_char_facts (c : ascii) :
  is_space (upper_char c) = is_space c /\
  lower_char (upper_char c) = lower_char c.
Proof. destruct c as [[] [] [] [] [] [] [] []]; split; reflexivity. Qed.

Lemma lower_upper (s : string) : lower (upper s) = lower s.
Proof.
  unfold lower, upper. induction s as [|c s IH]; [reflexivity|].
  cbn [map_string]. now rewrite IH, (proj2 (upper_char_facts c)).
Qed.

Lemma lstrip_upper (s : string) : lstrip (upper s) = upper (lstrip s).
Proof.
  unfold upper. induction s as [|c s IH]; [reflexivity|].
  cbn [map_string lstrip]. rewrite (proj1 (upper_char_facts c)).
  now destruct (is_space c).
Qed.

Lemma rstrip_upper (s : string) : rstrip (upper s) = upper (rstrip s).
Proof.
  unfold upper. induction s as [|c s IH]; [reflexivity|].
  cbn [map_string rstrip]. rewrite IH, (proj1 (upper_char_facts c)).
  destruct (rstrip s); [now destruct (is_space c) | reflexivity].
Qed.

Lemma lstrip_blank (a s : string) :
  Logic.blank a = true -> lstrip (a ++ s) = lstrip s.
Proof.
  induction a as [|c a IH]; [reflexivity|].
  cbn [Logic.blank]. change (String.append (String c a) s) with (String c (String.append a s)).
  cbn [lstrip].
  intros H. apply andb_prop in H as [Hc Ha]. rewrite Hc. now apply IH.
Qed.

Lemma rstrip_blank (s b : string) :
  Logic.blank b = true -> rstrip (s ++ b) = rstrip s.
Proof.
  intros Hb. induction s as [|c s IH].
  - change (String.append "" b) with b. induction b as [|c b IHb]; [reflexivity|].
    cbn [Logic.blank rstrip] in Hb |- *. apply andb_prop in Hb as [Hc Hb].
    now rewrite (IHb Hb), Hc.
  - change (String.append (String c s) b) with (String c (String.append s b)). cbn [rstrip].
    now rewrite IH.
Qed.

Lemma strip_blank (a s b : string) :
  Logic.blank a = true -> Logic.blank b = true ->
  strip (a ++ s ++ b) = strip s.
Proof.
  intros Ha Hb. unfold strip. rewrite (lstrip_blank a _ Ha).
  induction s as [|c s IH].
  - change (String.append "" b) with b.
    assert (H : lstrip b = "").
    { clear Ha. induction b as [|c b IHb]; [reflexivity|].
      cbn [Logic.blank lstrip] in Hb |- *. apply andb_prop in Hb as [Hc Hb].
      rewrite Hc. now apply IHb. }
    now rewrite H.
  - change (String.append (String c s) b) with (String c (String.append s b)). cbn [lstrip].
    destruct (is_space c); [exact IH|].
    change (String c (String.append s b)) with (String.append (String c s) b).
    now apply rstrip_blank.
Qed.

(** X5: [_parse_bool] reads its text without regard to letter case and
    to white space around it; None gives the default; and a text either
    decides the value whatever the default is, or leaves it to the
    default. *)
Theorem parse_bool_insensitive (a s b : string) (d : bool) :
  Logic.blank a = true -> Logic.blank b = true ->
  _parse_bool (Some (a ++ upper s ++ b)%string) d = _parse_bool (Some s) d /\
  _parse_bool None d = d /\
  (_parse_bool (Some s) true = _parse_bool (Some s) false \/
   forall d', _parse_bool (Some s) d' = d').
Proof.
  intros Ha Hb. split; [|split].
  - unfold _parse_bool, str_of. rewrite (strip_blank a _ b Ha Hb).
    unfold strip. now rewrite lstrip_upper, rstrip_upper, lower_upper.
  - reflexivity.
  - unfold _parse_bool.
    destruct (existsb _ _); [now left|].
    destruct (existsb _ _); [now left | now right].
Qed.

Lemma parse_bool_insensitive_witness :
  _parse_bool (Some ("  " ++ upper "Yes" ++ " ")%string) false
  = _parse_bool (Some "Yes") false.
Proof.
  exact (proj1 (parse_bool_insensitive "  " "Yes" " " false eq_refl eq_refl)).
Defined.

(** ** _init: what it keeps and what it lets through *)

Import Logic.

Section Keeps.

Variable I : RS485.State -> Prop.

Lemma keeps_ret {A} (a : A) : keeps I (ret a).
Proof. intros m Hm. exact Hm. Qed.

Lemma keeps_raise {A} (e : exn) : keeps I (@raise A e).
Proof. intros m Hm. exact Hm. Qed.

Lemma keeps_lift {A} (r : result A) : keeps I (lift r).
Proof. intros m Hm. exact Hm. Qed.

Lemma keeps_read {A} (f : RS485.State -> A) : keeps I (read f).
Proof. intros m Hm. exact Hm. Qed.

Lemma keeps_emit (e : RS485.event) : keeps I (emit e).
Proof. intros m Hm. exact Hm. Qed.

Lemma keeps_or_else {A} (r : result A) (a : A) : keeps I (or_else r a).
Proof.
  intros m Hm. destruct r as [x|e]; [exact Hm|].
  unfold or_else. destruct (is_Exception e); exact Hm.
Qed.

Lemma keeps_assign (f : RS485.State -> RS485.State) :
  (forall s, I s -> I (f s)) -> keeps I (assign f).
Proof. intros Hf m Hm. now apply Hf. Qed.

Lemma keeps_bind {A B} (c : M A) (k : A -> M B) :
  keeps I c -> (forall a, keeps I (k a)) -> keeps I (bind c k).
Proof.
  intros Hc Hk m Hm. unfold bind. specialize (Hc m Hm).
  destruct (c m) as [m' [a|e]]; [now apply Hk | exact Hc].
Qed.

Lemma keeps_try_except (body handler : M unit) :
  keeps I body -> keeps I handler -> keeps I (try_except body handler).
Proof.
  intros Hb Hh m Hm. unfold try_except. specialize (Hb m Hm).
  destruct (body m) as [m' [a|e]]; [exact Hb|].
  destruct (is_Exception e); [now apply Hh | exact Hb].
Qed.

End Keeps.

Section Quiet.

Lemma quiet_ret {A} (a : A) : quiet (ret a).
Proof. now intros m. Qed.

Lemma quiet_read {A} (f : RS485.State -> A) : quiet (read f).
Proof. now intros m. Qed.

Lemma quiet_assign (f : RS485.State -> RS485.State) : quiet (assign f).
Proof. now intros m. Qed.

Lemma quiet_emit (e : RS485.event) : quiet (emit e).
Proof. now intros m. Qed.

Lemma quiet_lift {A} (r : result A) : interrupted r = false -> quiet (lift r).
Proof. now intros Hr m. Qed.

Lemma quiet_or_else {A} (r : result A) (a : A) :
  interrupted r = false -> quiet (or_else r a).
Proof.
  intros Hr m. destruct r as [x|e]; [reflexivity|].
  unfold or_else. cbn [interrupted] in Hr.
  destruct (is_Exception e); [reflexivity | discriminate Hr].
Qed.

Lemma quiet_bind {A B} (c : M A) (k : A -> M B) :
  quiet c -> (forall a, quiet (k a)) -> quiet (bind c k).
Proof.
  intros Hc Hk m. unfold bind. specialize (Hc m).
  destruct (c m) as [m' [a|e]]; [apply Hk | exact Hc].
Qed.

(** A [try] whose body lets only Exceptions out and whose handler
    completes always completes. *)
Lemma try_except_completes (body handler : M unit) :
  quiet body -> (forall m, snd (handler m) = Ok tt) ->
  forall m, snd (try_except body handler m) = Ok tt.
Proof.
  intros Hb Hh m. unfold try_except. specialize (Hb m).
  destruct (body m) as [m' [[]|e]]; [reflexivity|].
  cbn in Hb. destruct (is_Exception e); [apply Hh | discriminate Hb].
Qed.

Lemma convert_quiet {A} (v : setting A) (d : A) : interrupted (convert v d) = false.
Proof. now destruct v. Qed.

End Quiet.

(** The block that sets the poll interval leaves it at or above the
    floor. *)
Lemma floor_block (p : float) :
  keeps interval_floor
    (bind (assign (set_poll_s p))
       (fun _ => if (p <? 0.2)%float then assign (set_poll_s 0.2%float) else ret tt)).
Proof.
  intros m _. unfold bind, assign, ret, interval_floor.
  cbn [fst snd globals]. destruct (p <? 0.2)%float eqn:Hp; [reflexivity | exact Hp].
Qed.

Ltac keeps_step :=
  lazymatch goal with
  | |- keeps _ (bind _ _) =>
      first [ apply floor_block | apply keeps_bind; [|intros ?] ]
  | |- keeps _ (try_except _ _) => apply keeps_try_except
  | |- keeps _ (assign _) =>
      apply keeps_assign;
      let s := fresh "s" in let Hs := fresh "Hs" in
      intros s Hs; first [exact Hs | reflexivity]
  | |- keeps _ (lift _) => apply keeps_lift
  | |- keeps _ (or_else _ _) => apply keeps_or_else
  | |- keeps _ (emit _) => apply keeps_emit
  | |- keeps _ (ret _) => apply keeps_ret
  | |- keeps _ (raise _) => apply keeps_raise
  | |- keeps _ (read _) => apply keeps_read
  | |- keeps _ (if ?c then _ else _) => destruct c
  | |- keeps _ (match ?x with _ => _ end) => destruct x
  end.

Ltac quiet_step :=
  lazymatch goal with
  | |- quiet (bind _ _) => apply quiet_bind; [|intros ?]
  | |- quiet (assign _) => apply quiet_assign
  | |- quiet (lift (convert _ _)) => apply quiet_lift, convert_quiet
  | |- quiet (or_else (convert _ _) _) => apply quiet_or_else, convert_quiet
  | |- quiet (emit _) => apply quiet_emit
  | |- quiet (ret _) => apply quiet_ret
  | |- quiet (read _) => apply quiet_read
  | |- quiet (if ?c then _ else _) => destruct c
  | |- quiet (match ?x with _ => _ end) => destruct x
  end.

(** [_init] keeps the readings and the error counter, and the floor of
    the poll interval. *)
Lemma init_keeps_readings (w : World) r :
  keeps (fun s => readings s = r) (_init w).
Proof. unfold _init. cbv zeta. repeat keeps_step. Qed.

Lemma init_keeps_floor (w : World) : keeps interval_floor (_init w).
Proof. unfold _init. cbv zeta. repeat keeps_step. Qed.

Lemma init_enabled (w : World) (m : Machine) :
  _enabled (globals (fst (_init w m))) = switched_on (env w).
Proof.
  unfold _init, switched_on. cbv zeta.
  destruct (is_not (MODBUS_MODE (env w)) "TCP"); [reflexivity|].
  destruct (_parse_bool (RS485_SENSOR_ENABLE (env w)) false); [|reflexivity].
  cbn [negb andb].
  match goal with
  | |- _enabled (globals (fst (try_except (bind (assign ?f) ?k) ?h m))) = true =>
      change (try_except (bind (assign f) k) h m)
        with (try_except (k tt) h {| globals := f (globals m); trace := trace m |});
      apply (keeps_try_except (fun s => _enabled s = true) (k tt) h)
  end; [| |reflexivity]; cbv beta; repeat keeps_step.
Qed.

(** X6: whatever the settings are and whatever fails, [_init] leaves
    [_enabled] true exactly when the mode is TCP and the sensor enable
    flag parses as true; a failure later in [_init] does not take it
    back. *)
Theorem init_enabled_by_settings (w : World) (m : Machine) :
  _enabled (globals (fst (_init w m))) = switched_on (env w).
Proof.
  unfold _init, switched_on. cbv zeta.
  destruct (is_not (MODBUS_MODE (env w)) "TCP"); [reflexivity|].
  destruct (_parse_bool (RS485_SENSOR_ENABLE (env w)) false); [|reflexivity].
  cbn [negb andb].
  match goal with
  | |- _enabled (globals (fst (try_except (bind (assign ?f) ?k) ?h m))) = true =>
      change (try_except (bind (assign f) k) h m)
        with (try_except (k tt) h {| globals := f (globals m); trace := trace m |});
      apply (keeps_try_except (fun s => _enabled s = true) (k tt) h)
  end; [| |reflexivity]; cbv beta; repeat keeps_step.
Qed.

(** X7: [_init] changes no reading and not the error counter, whatever
    the settings are and however it ends. *)
Theorem init_keeps_the_readings (w : World) (m : Machine) :
  readings (globals (fst (_init w m))) = readings (globals m).
Proof.
  assert (H : keeps (fun s => readings s = readings (globals m)) (_init w)).
  { unfold _init. cbv zeta. repeat keeps_step. }
  now apply H.
Qed.

Lemma init_completes (w : World) (m : Machine) :
  interrupted (serial_ctor w) = false ->
  snd (_init w m) = Ok tt.
Proof.
  intros Hctor. unfold _init. cbv zeta.
  apply try_except_completes; [|reflexivity].
  destruct (RS485_SENSOR_POLL_SEC (env w)), (RS485_SENSOR_BAUD (env w));
    cbn [convert is_Exception]; repeat quiet_step;
    apply quiet_lift; first [exact Hctor | apply convert_quiet | reflexivity].
Qed.

(** X8: no failure inside [_init] gets out of it: a setting that does
    not convert and a transport that cannot be constructed are both
    swallowed.  Only an interrupt raised by the constructor goes on. *)
Theorem init_swallows_failures (w : World) (m : Machine) :
  interrupted (serial_ctor w) = false ->
  snd (_init w m) = Ok tt.
Proof.
  intros Hctor. unfold _init. cbv zeta.
  apply try_except_completes; [|reflexivity].
  destruct (RS485_SENSOR_POLL_SEC (env w)), (RS485_SENSOR_BAUD (env w));
    cbn [convert is_Exception]; repeat quiet_step;
    apply quiet_lift; first [exact Hctor | apply convert_quiet | reflexivity].
Qed.

Lemma init_swallows_failures_witness :
  snd (_init Sample.no_transport {| globals := initial; trace := [] |}) = Ok tt.
Proof. exact (init_swallows_failures Sample.no_transport _ eq_refl). Defined.

(** ** process: the whole call in closed form *)

Lemma humidity_reading_not_interrupted (w : World) (s : RS485.State) :
  humidity_response w <> Raise KeyboardInterrupt ->
  interrupted (humidity_reading w s) = false.
Proof.
  unfold humidity_reading. intros Hr. destruct (_serial s); [|reflexivity].
  destruct (humidity_response w) as [vals|e]; cbn.
  - destruct (_decode_vals _ _ _ _) as [rv|e] eqn:Hd; [reflexivity|].
    cbn. now rewrite (decode_raises_exception _ _ _ _ _ Hd).
  - destruct e; try reflexivity. now destruct Hr.
Qed.

Lemma escape_interrupted {A} (r : result A) :
  interrupted r = false -> escape r = Ok tt.
Proof.
  destruct r as [a|e]; [reflexivity|]. cbn.
  now destruct (is_Exception e).
Qed.

(** A due call of [process] on an enabled poller: globals, transport
    events and outcome. *)
Lemma run_closed_form (w : World) (s : RS485.State) :
  _enabled s = true -> due w s = true ->
  run (process w) s =
  let now := RS485.monotonic w in
  let s1 := set_next_poll (now + _poll_s s)%float s in
  let tr1 := request s (_reg_addr s) (_qty s) (_signed s) in
  if interrupted (primary_reading w s)
  then ({| globals := s1; trace := tr1 |}, escape (primary_reading w s))
  else
    let s2 := store_primary now (primary_reading w s) s1 in
    if _hum_enable s then
      let tr2 := tr1 ++ request s (_hum_reg s) (_hum_qty s) (_hum_signed s) in
      if interrupted (humidity_reading w s)
      then ({| globals := s2; trace := tr2 |}, escape (humidity_reading w s))
      else ({| globals := store_humidity (humidity_reading w s) s2;
               trace := tr2 |}, Ok tt)
    else ({| globals := s2; trace := tr1 |}, Ok tt).
Proof.
  intros Hen Hdue. unfold run. rewrite process_enabled, Hdue by exact Hen.
  unfold bind. rewrite poll_primary_spec. cbv zeta. cbn [globals trace].
  change (primary_reading w (set_next_poll _ s)) with (primary_reading w s).
  change (request (set_next_poll ?x s) (_reg_addr (set_next_poll ?x s))
            (_qty (set_next_poll ?x s)) (_signed (set_next_poll ?x s)))
    with (request s (_reg_addr s) (_qty s) (_signed s)).
  change ([] ++ request s (_reg_addr s) (_qty s) (_signed s))
    with (request s (_reg_addr s) (_qty s) (_signed s)).
  generalize (request s (_reg_addr s) (_qty s) (_signed s)). intros tr1.
  destruct (primary_reading w s) as [rv|e]; cbn [interrupted escape];
    [|destruct (is_Exception e); cbn [negb]; [|reflexivity]];
    cbv beta iota; rewrite poll_humidity_spec; cbv zeta; cbn [globals trace];
    unfold store_primary;
    match goal with
    | |- context [humidity_reading w ?g] =>
        change (humidity_reading w g) with (humidity_reading w s);
        change (_hum_enable g) with (_hum_enable s);
        change (request g (_hum_reg g) (_hum_qty g) (_hum_signed g))
          with (request s (_hum_reg s) (_hum_qty s) (_hum_signed s))
    end;
    (destruct (_hum_enable s); [|reflexivity]);
    (destruct (humidity_reading w s) as [hv|e']; [reflexivity|]);
    cbn [interrupted escape]; now destruct (is_Exception e').
Qed.

Lemma process_disabled (w : World) (m : Machine) :
  _enabled (globals m) = false ->
  process w m = match _serial (globals m) with
                | None => _init w m
                | Some _ => (m, Ok tt)
                end.
Proof.
  intros Hen. unfold process, bind at 1, read at 1. cbn [fst snd].
  rewrite Hen. cbn [negb]. unfold bind, read. cbn [fst snd].
  now destruct (_serial (globals m)).
Qed.

(** X9: no failure of the transport gets out of [process]: unless a
    collaborator raises an interrupt, the call returns normally, enabled
    or not, due or not, with or without a transport. *)
Theorem process_swallows_failures (w : World) (s : RS485.State) :
  interrupted (serial_ctor w) = false ->
  primary_response w <> Raise KeyboardInterrupt ->
  humidity_response w <> Raise KeyboardInterrupt ->
  outcome w s = Ok tt.
Proof.
  intros Hctor Hprim Hhum. destruct (_enabled s) eqn:Hen.
  - destruct (due w s) eqn:Hdue; [|now apply step_idle].
    unfold outcome. rewrite run_closed_form by assumption. cbv zeta.
    rewrite (primary_reading_not_interrupted w s Hprim).
    rewrite (humidity_reading_not_interrupted w s Hhum).
    now destruct (_hum_enable s).
  - unfold outcome, run. rewrite process_disabled by exact Hen.
    cbn [globals]. destruct (_serial s); [reflexivity|].
    now apply init_completes.
Qed.

Lemma process_swallows_failures_witness :
  outcome Sample.primary_down Sample.polled = Ok tt.
Proof.
  apply process_swallows_failures; [reflexivity | discriminate | discriminate].
Defined.

Lemma set_enabled_same (s : RS485.State) :
  _enabled s = false -> set_enabled false s = s.
Proof. destruct s. cbn. now intros ->. Qed.

Lemma init_switched_off (w : World) (m : Machine) :
  switched_on (env w) = false ->
  _init w m = ({| globals := set_enabled false (globals m); trace := trace m |},
               Ok tt).
Proof.
  unfold switched_on, _init. cbv zeta. intros Hoff.
  destruct (is_not (MODBUS_MODE (env w)) "TCP"); [reflexivity|].
  destruct (_parse_bool (RS485_SENSOR_ENABLE (env w)) false);
    [discriminate Hoff | reflexivity].
Qed.

Lemma step_switched_off (w : World) (s : RS485.State) :
  _enabled s = false -> switched_on (env w) = false ->
  step w s = s /\ events w s = [] /\ outcome w s = Ok tt.
Proof.
  intros Hen Hoff. unfold step, events, outcome, run.
  rewrite process_disabled by exact Hen. cbn [globals].
  destruct (_serial s); [now repeat split|].
  rewrite init_switched_off by exact Hoff. cbn [fst snd globals trace].
  now rewrite set_enabled_same.
Qed.

(** X10: a poller that the settings switch off stays as it is: while
    the mode is not TCP or the enable flag is not set, no number of
    calls of [process] changes a global or reaches the transport. *)
Theorem switched_off_is_inert (ws : list World) (s : RS485.State) :
  _enabled s = false ->
  Forall (fun w => switched_on (env w) = false) ws ->
  steps ws s = s /\
  forall w, switched_on (env w) = false ->
    events w (steps ws s) = [] /\ outcome w (steps ws s) = Ok tt.
Proof.
  intros Hen Hall.
  assert (Hsame : steps ws s = s).
  { induction Hall as [|w ws Hw Hall IH]; [reflexivity|].
    destruct (step_switched_off w s Hen Hw) as (Hs & _ & Ho).
    cbn [steps]. now rewrite Ho, Hs. }
  split; [exact Hsame|]. intros w Hw. rewrite Hsame.
  now destruct (step_switched_off w s Hen Hw) as (_ & He & Ho).
Qed.

Lemma switched_off_is_inert_witness :
  steps [Scenario.rtu_world 1; Scenario.rtu_world 2] initial = initial.
Proof.
  assert (Hen : _enabled initial = false) by reflexivity.
  assert (Hall : Forall (fun w => switched_on (env w) = false)
                   [Scenario.rtu_world 1; Scenario.rtu_world 2]).
  { repeat constructor. }
  exact (proj1 (switched_off_is_inert _ _ Hen Hall)).
Defined.

(** X11: an enabled poller never reconfigures itself: a call of
    [process] leaves the transport, the register addresses, formats,
    scales and the poll interval as they are, whatever the bus answers. *)
Theorem process_keeps_configuration (w : World) (s : RS485.State) :
  _enabled s = true ->
  configuration (step w s) = configuration s.
Proof.
  intros Hen. destruct (due w s) eqn:Hdue.
  - rewrite step_closed_form by assumption. cbv zeta.
    destruct (interrupted (primary_reading w s)); [reflexivity|].
    destruct (_hum_enable s && negb (interrupted (humidity_reading w s)));
      destruct (primary_reading w s); try reflexivity;
      destruct (humidity_reading w s); reflexivity.
  - now rewrite (proj1 (step_idle w s Hen Hdue)).
Qed.

Lemma process_keeps_configuration_witness :
  configuration (step Sample.primary_down Sample.polled)
  = configuration Sample.polled.
Proof.
  apply process_keeps_configuration. vm_compute. reflexivity.
Defined.

Lemma step_poll_s (w : World) (s : RS485.State) :
  _enabled s = true -> _poll_s (step w s) = _poll_s s.
Proof.
  intros Hen. destruct (due w s) eqn:Hdue.
  - rewrite step_closed_form by assumption. cbv zeta.
    destruct (interrupted (primary_reading w s)); [reflexivity|].
    destruct (_hum_enable s && negb (interrupted (humidity_reading w s)));
      destruct (primary_reading w s); try reflexivity;
      destruct (humidity_reading w s); reflexivity.
  - now rewrite (proj1 (step_idle w s Hen Hdue)).
Qed.

Lemma step_keeps_floor (w : World) (s : RS485.State) :
  interval_floor s -> interval_floor (step w s).
Proof.
  intros Hfloor. destruct (_enabled s) eqn:Hen.
  - unfold interval_floor. now rewrite step_poll_s.
  - unfold step, run. rewrite process_disabled by exact Hen. cbn [globals].
    destruct (_serial s); [exact Hfloor|].
    now apply init_keeps_floor.
Qed.

(** X12: the poll interval never falls below its floor of 0.2 s: in
    every state that calls of [process] reach from the initial globals,
    whatever the settings say, [_poll_s < 0.2] is false. *)
Theorem interval_never_below_floor (ws : list World) :
  (_poll_s (steps ws initial) <? 0.2)%float = false.
Proof.
  assert (H : forall s, interval_floor s -> interval_floor (steps ws s)).
  { induction ws as [|w ws IH]; intros s Hs; [exact Hs|].
    cbn [steps]. destruct (outcome w s);
      [apply IH|]; now apply step_keeps_floor. }
  now apply H.
Qed.

Lemma readings_when_disabled (w : World) (s : RS485.State) :
  _enabled s = false -> readings (step w s) = readings s.
Proof.
  intros Hen. unfold step, run. rewrite process_disabled by exact Hen.
  cbn [globals]. destruct (_serial s); [reflexivity|].
  now apply (init_keeps_readings w (readings s)).
Qed.

Lemma err_count_step (w : World) (s : RS485.State) :
  _err_count (step w s) = _err_count s \/
  _err_count (step w s) = _err_count s + 1.
Proof.
  destruct (_enabled s) eqn:Hen.
  - destruct (due w s) eqn:Hdue.
    + rewrite step_closed_form by assumption. cbv zeta.
      destruct (interrupted (primary_reading w s)); [now left|].
      destruct (_hum_enable s && negb (interrupted (humidity_reading w s)));
        destruct (primary_reading w s);
        try (left; reflexivity); try (right; reflexivity);
        destruct (humidity_reading w s);
        try (left; reflexivity); right; reflexivity.
    + left. now rewrite (proj1 (step_idle w s Hen Hdue)).
  - left. pose proof (readings_when_disabled w s Hen) as Hr.
    unfold readings in Hr. now injection Hr as _ _ _ _ Hr _ _ _.
Qed.

(** X13: the error counter never goes down and moves by at most one per
    call: over any sequence of calls of [process], from any globals, it
    ends at least where it started and at most the number of calls
    higher. *)
Theorem err_count_monotone (ws : list World) (s : RS485.State) :
  _err_count s <= _err_count (steps ws s) <= _err_count s + Z.of_nat (List.length ws).
Proof.
  revert s. induction ws as [|w ws IH]; intros s; [cbn; lia|].
  cbn [steps List.length]. pose proof (err_count_step w s) as Hstep.
  destruct (outcome w s); [specialize (IH (step w s))|]; lia.
Qed.

(** X14: a poll that succeeds stores what it decoded: the raw and the
    scaled value, the ok flag and the time of the call; the error
    counter stays. *)
Theorem primary_success_stored (w : World) (s : RS485.State) (ser : Serial)
    (vals : list Z) (raw : Z) (val : float) :
  _enabled s = true -> due w s = true ->
  _serial s = Some ser ->
  primary_response w = Ok vals ->
  _decode_vals vals (_format s) (_signed s) (_scale s) = Ok (raw, val) ->
  _last_raw (step w s) = Some raw /\
  _last_value (step w s) = Some val /\
  _last_ok (step w s) = true /\
  _last_ts (step w s) = RS485.monotonic w /\
  _err_count (step w s) = _err_count s.
Proof.
  intros Hen Hdue Hser Hresp Hdec.
  assert (Hread : primary_reading w s = Ok (raw, val)).
  { unfold primary_reading. now rewrite Hser, Hresp. }
  rewrite step_closed_form by assumption. cbv zeta. rewrite Hread.
  cbn [interrupted].
  destruct (_hum_enable s && negb (interrupted (humidity_reading w s)));
    [destruct (humidity_reading w s)|]; now repeat split.
Qed.

Lemma primary_success_stored_witness :
  _last_raw (step (Sample.world 2 (Ok tt) (Ok [235]) (Ok [612])) Sample.active)
  = Some 235 /\
  _last_value (step (Sample.world 2 (Ok tt) (Ok [235]) (Ok [612])) Sample.active)
  = Some 23.5%float.
Proof.
  assert (Hen : _enabled Sample.active = true) by (vm_compute; reflexivity).
  assert (Hdue : due (Sample.world 2 (Ok tt) (Ok [235]) (Ok [612])) Sample.active
                 = true) by (vm_compute; reflexivity).
  assert (Hser : _serial Sample.active = Some {| baudrate := 9600 |})
    by (vm_compute; reflexivity).
  assert (Hdec : _decode_vals [235] (_format Sample.active) (_signed Sample.active)
                   (_scale Sample.active) = Ok (235, 23.5%float))
    by (vm_compute; reflexivity).
  destruct (primary_success_stored _ _ _ _ _ _ Hen Hdue Hser eq_refl Hdec)
    as (H1 & H2 & _).
  exact (conj H1 H2).
Defined.

(** X15: what a due call puts on the bus: one read of the primary
    registers and then, when the humidity channel is enabled, one read
    of the humidity registers, both on the configured table and slave
    address; never more than these two. *)
Theorem reads_issued (w : World) (s : RS485.State) (ser : Serial) :
  _enabled s = true -> due w s = true ->
  _serial s = Some ser ->
  primary_response w <> Raise KeyboardInterrupt ->
  events w s
  = ReadRegisters (_use_input_regs s) (_slave_addr s) (_reg_addr s) (_qty s)
      (_signed s)
    :: (if _hum_enable s
        then [ReadRegisters (_use_input_regs s) (_slave_addr s) (_hum_reg s)
                (_hum_qty s) (_hum_signed s)]
        else []).
Proof.
  intros Hen Hdue Hser Hprim. unfold events.
  rewrite run_closed_form by assumption. cbv zeta.
  rewrite (primary_reading_not_interrupted w s Hprim).
  unfold request. rewrite Hser.
  destruct (_hum_enable s); [|reflexivity].
  now destruct (interrupted (humidity_reading w s)).
Qed.

Lemma reads_issued_witness :
  events Sample.primary_down Sample.polled
  = [ReadRegisters false 1 1 1 false; ReadRegisters false 1 2 1 false].
Proof.
  assert (Hen : _enabled Sample.polled = true) by (vm_compute; reflexivity).
  assert (Hdue : due Sample.primary_down Sample.polled = true)
    by (vm_compute; reflexivity).
  assert (Hser : _serial Sample.polled = Some {| baudrate := 9600 |})
    by (vm_compute; reflexivity).
  assert (Hprim : primary_response Sample.primary_down <> Raise KeyboardInterrupt)
    by discriminate.
  rewrite (reads_issued _ _ _ Hen Hdue Hser Hprim). vm_compute. reflexivity.
Defined.

(** ** _fmt_uptime *)

Lemma length_append (a b : string) :
  String.length (a ++ b) = (String.length a + String.length b)%nat.
Proof.
  induction a as [|c a IH]; [reflexivity|].
  change (String.append (String c a) b) with (String c (String.append a b)).
  cbn [String.length]. now rewrite IH.
Qed.

Lemma fmt_02d_width (n : Z) :
  0 <= n < 100 -> String.length (fmt_02d n) = 2%nat.
Proof.
  intros Hn.
  assert (Hall : forallb (fun k => (String.length (fmt_02d (Z.of_nat k)) =? 2)%nat)
                   (seq 0 100) = true) by (vm_compute; reflexivity).
  rewrite forallb_forall in Hall.
  specialize (Hall (Z.to_nat n)). rewrite Z2Nat.id in Hall by lia.
  apply Nat.eqb_eq, Hall, in_seq. lia.
Qed.



(** ** The output toggle routes: failures and frame *)

(** X17: when the mirror write raises, the change of the output stands:
    the HAL holds the negated state and the Modbus module is as before;
    the route answers with the redirect all the same when what was
    raised is an Exception, and lets anything else through. *)
Theorem toggle_mirror_failure (o : output) (sys : System) (v : bool)
    (e : exn) :
  get_dout o (hal sys) = Ok v ->
  set_coil (DO_ADD o (modbus sys)) (if v then 0 else 1) (modbus sys) = Raise e ->
  fst (toggle o sys) = with_hal (set_dout o (negb v) (hal sys)) sys /\
  snd (toggle o sys) = if is_Exception e then Ok redirect else Raise e.
Proof.
  intros Hpin Hcoil. unfold toggle. rewrite Hpin.
  cbn [modbus with_hal hal]. rewrite Hcoil.
  cbn [fst snd]. now destruct v.
Qed.

Lemma toggle_mirror_failure_witness :
  get_dout DO0 (hal (fst (do0_toggle Scenario.unmirrored))) = Ok false /\
  snd (do0_toggle Scenario.unmirrored) = Ok redirect.
Proof.
  assert (Hpin : get_dout DO0 (hal Scenario.unmirrored) = Ok true) by reflexivity.
  assert (Hcoil : set_coil (DO_ADD DO0 (modbus Scenario.unmirrored))
                    (if true then 0 else 1) (modbus Scenario.unmirrored)
                  = Raise KeyError)
    by (vm_compute; reflexivity).
  destruct (toggle_mirror_failure DO0 _ true KeyError Hpin Hcoil) as [H1 H2].
  split; [|exact H2].
  unfold do0_toggle. rewrite H1. reflexivity.
Defined.

(** X18: a toggle route touches its own output and its own coil only:
    every other output, every other coil and the coil addresses are as
    before, whether the route succeeds or not; and unless reading the
    pin raises an interrupt it answers with the redirect. *)
Theorem toggle_frame (o other : output) (a : Z) (sys : System) :
  other <> o ->
  a <> DO_ADD o (modbus sys) ->
  get_dout other (hal (fst (toggle o sys))) = get_dout other (hal sys) /\
  coils (modbus (fst (toggle o sys))) !! a = coils (modbus sys) !! a /\
  (forall p, DO_ADD p (modbus (fst (toggle o sys))) = DO_ADD p (modbus sys)) /\
  (interrupted (get_dout o (hal sys)) = false ->
   snd (toggle o sys) = Ok redirect).
Proof.
  intros Hother Ha. unfold toggle.
  destruct (get_dout o (hal sys)) as [cur|e] eqn:Hpin.
  - cbn [modbus with_hal hal]. unfold set_coil.
    destruct (coils (modbus sys) !! DO_ADD o (modbus sys)) as [c|] eqn:Hcoil;
      cbn [fst snd modbus hal with_hal with_modbus coils is_Exception].
    + split; [now destruct other, o|].
      split; [apply lookup_insert_ne; congruence|].
      split; [now intros []|reflexivity].
    + split; [now destruct other, o|].
      split; [reflexivity|]. split; [now intros []|reflexivity].
  - cbn [fst snd interrupted]. repeat split.
    intros He. now destruct (is_Exception e).
Qed.

Lemma toggle_frame_witness :
  get_dout DO2 (hal (fst (toggle DO0 Sample.board))) = get_dout DO2 (hal Sample.board) /\
  coils (modbus (fst (toggle DO0 Sample.board))) !! 2
  = coils (modbus Sample.board) !! 2.
Proof.
  assert (Hother : DO2 <> DO0) by discriminate.
  assert (Ha : 2 <> DO_ADD DO0 (modbus Sample.board)) by discriminate.
  destruct (toggle_frame DO0 DO2 2 Sample.board Hother Ha) as (H1 & H2 & _).
  exact (conj H1 H2).
Defined.

(** ** The web server: activation and polling *)

(** X19: a call of the web server's [process] from the disabled state
    brings the server up exactly when the mode is not RTU, the HTTP
    library is there, WEBSERVER_ENABLE is absent or true, the Modbus
    module has a socket pool, and constructing and starting the server
    both go through.  Reading the device address is no condition: when
    it raises an Exception, or when there is no Ethernet interface, the
    server is started on host None, else on the device address; only an
    interrupt raised by that read stops the activation.  The server is
    started once, on the port of WEBSERVER_PORT (80 when that is absent
    or does not convert), and is not polled in that call. *)
Theorem server_activation (w : WebServer.World) (s : WebServer.State) :
  WebServer._enabled s = false ->
  WebServer._enabled (fst (fst (WebServer.process w s))) = WebServer.activates w /\
  WebServer.activates w
  = (negb (WebServer.is_rtu (WebServer.MODBUS_MODE (WebServer.env w))) &&
     WebServer._have_httpserver w &&
     WebServer.enable_flag (WebServer.WEBSERVER_ENABLE (WebServer.env w)) &&
     match WebServer.sockpool w with Some _ => true | None => false end &&
     succeeded (WebServer.server_ctor w) &&
     match WebServer.eth w with
     | Some e => negb (interrupted (pretty_ip e))
     | None => true
     end &&
     succeeded (WebServer.server_start w)) /\
  ~ In WebServer.Poll (snd (fst (WebServer.process w s))) /\
  (WebServer.activates w = true ->
   snd (fst (WebServer.process w s))
   = [WebServer.Start
        match WebServer.eth w with
        | Some e => match pretty_ip e with
                    | Ok ip => Some ip
                    | Raise _ => None
                    end
        | None => None
        end
        (WebServer.port_of (WebServer.WEBSERVER_PORT (WebServer.env w)))] /\
   WebServer._pool (fst (fst (WebServer.process w s))) = WebServer.sockpool w /\
   snd (WebServer.process w s) = Ok tt).
Proof.
  intros Hen.
  unfold WebServer.process, WebServer._init_server, WebServer.activates,
    WebServer.abandon, WebServer.bind_host, attempt, interrupted, succeeded.
  rewrite Hen. cbn [negb]. cbv zeta.
  assert (Hnil : ~ In WebServer.Poll []) by (intros []).
  assert (Hstart : forall h p, ~ In WebServer.Poll [WebServer.Start h p]).
  { intros h p [H|[]]. discriminate H. }
  destruct (WebServer.is_rtu _);
    [cbn -[In]; repeat split; first [exact Hnil | exact Hen | apply Hstart | discriminate]|].
  destruct (WebServer._have_httpserver w);
    [|cbn -[In]; repeat split; first [exact Hnil | exact Hen | apply Hstart | discriminate]].
  destruct (WebServer.enable_flag _);
    [|cbn -[In]; repeat split; first [exact Hnil | exact Hen | apply Hstart | discriminate]].
  destruct (WebServer.sockpool w) as [pool|];
    [|cbn -[In]; repeat split; first [exact Hnil | exact Hen | apply Hstart | discriminate]].
  destruct (WebServer.server_ctor w) as [[]|e];
    [|destruct (is_Exception e); cbn -[In]; repeat split; first [exact Hnil | exact Hen | apply Hstart | discriminate]].
  destruct (WebServer.eth w) as [i|].
  - destruct (pretty_ip i) as [ip|x].
    + destruct (WebServer.server_start w) as [[]|e];
        [|destruct (is_Exception e)];
        cbn -[In]; repeat split; first [exact Hnil | exact Hen | apply Hstart | discriminate].
    + destruct (is_Exception x);
        [destruct (WebServer.server_start w) as [[]|e];
         [|destruct (is_Exception e)]|];
        cbn -[In]; repeat split; first [exact Hnil | exact Hen | apply Hstart | discriminate].
  - destruct (WebServer.server_start w) as [[]|e];
      [|destruct (is_Exception e)];
      cbn -[In]; repeat split; first [exact Hnil | exact Hen | apply Hstart | discriminate].
Qed.

Lemma server_activation_witness :
  (WebServer._enabled
     (fst (fst (WebServer.process (Scenario.web_world (Ok tt)) WebServer.initial)))
   = true /\
   snd (fst (WebServer.process (Scenario.web_world (Ok tt)) WebServer.initial))
   = [WebServer.Start (Some "192.168.1.10") 8080]) /\
  (WebServer._enabled
     (fst (fst (WebServer.process Scenario.no_address WebServer.initial)))
   = true /\
   snd (fst (WebServer.process Scenario.no_address WebServer.initial))
   = [WebServer.Start None 8080]).
Proof.
  split.
  - destruct (server_activation (Scenario.web_world (Ok tt)) WebServer.initial
                eq_refl) as (H1 & _ & _ & H3).
    split; [exact H1|]. exact (proj1 (H3 eq_refl)).
  - destruct (server_activation Scenario.no_address WebServer.initial eq_refl)
      as (H1 & _ & _ & H3).
    split; [exact H1|]. exact (proj1 (H3 eq_refl)).
Defined.

Lemma bind_host_raise (eth : option Eth) (e : exn) :
  WebServer.bind_host eth = Raise e -> is_Exception e = false.
Proof.
  unfold WebServer.bind_host, attempt. destruct eth as [i|]; [|discriminate].
  destruct (pretty_ip i) as [ip|x]; [discriminate|].
  destruct (is_Exception x) eqn:Hx; [discriminate|]. now intros [= <-].
Qed.

Lemma activation_outcome (w : WebServer.World) (s : WebServer.State) :
  WebServer._enabled s = false ->
  WebServer._enabled (fst (fst (WebServer.process w s))) = WebServer.activates w /\
  (WebServer.activates w = true -> snd (WebServer.process w s) = Ok tt).
Proof.
  intros Hen. unfold WebServer.process, WebServer._init_server,
    WebServer.activates, WebServer.abandon.
  rewrite Hen. cbn [negb]. cbv zeta.
  destruct (WebServer.is_rtu _); [now split|].
  destruct (WebServer._have_httpserver w); [|now split].
  destruct (WebServer.enable_flag _); [|now split].
  destruct (WebServer.sockpool w) as [pool|]; [|now split].
  destruct (WebServer.server_ctor w) as [[]|e];
    [|destruct (is_Exception e); now split].
  destruct (WebServer.bind_host (WebServer.eth w)) as [host|e]; [|now split].
  destruct (WebServer.server_start w) as [[]|e];
    [now split|destruct (is_Exception e); now split].
Qed.

Lemma server_failed_call (w : WebServer.World) (s : WebServer.State) :
  WebServer._enabled s = false -> calm w = true ->
  snd (WebServer.process w s) = Ok tt.
Proof.
  intros Hen Hcalm. unfold calm in Hcalm.
  apply andb_prop in Hcalm as [Hcalm _]. apply andb_prop in Hcalm as [Hcalm H3].
  apply andb_prop in Hcalm as [H1 H2].
  apply negb_true_iff in H1, H2, H3.
  unfold WebServer.process, WebServer._init_server, WebServer.abandon.
  rewrite Hen. cbn [negb]. cbv zeta.
  destruct (WebServer.is_rtu _); [reflexivity|].
  destruct (WebServer._have_httpserver w); [|reflexivity].
  destruct (WebServer.enable_flag _); [|reflexivity].
  destruct (WebServer.sockpool w) as [pool|]; [|reflexivity].
  destruct (WebServer.server_ctor w) as [[]|e].
  - destruct (WebServer.bind_host (WebServer.eth w)) as [host|e] eqn:Hb;
      [|apply bind_host_raise in Hb; cbn in H2; rewrite Hb in H2;
        discriminate H2].
    destruct (WebServer.server_start w) as [[]|e]; [reflexivity|].
    cbn in H3. now destruct (is_Exception e).
  - cbn in H1. now destruct (is_Exception e).
Qed.

(** X20: activation is tried again on every call until it works: after
    any number of calls that did not bring the server up, the first call
    that meets the conditions of activation brings it up. *)
Theorem server_activation_retried (ws : list WebServer.World)
    (w : WebServer.World) (s : WebServer.State) :
  WebServer._enabled s = false ->
  Forall (fun w' => WebServer.activates w' = false /\ calm w' = true) ws ->
  WebServer.activates w = true ->
  WebServer._enabled (WebServer.steps ws s) = false /\
  WebServer._enabled (WebServer.steps (ws ++ [w]) s) = true.
Proof.
  intros Hen Hall Hact. revert s Hen.
  induction Hall as [|w' ws [Hoff Hcalm] Hall IH]; intros s Hen.
  - split; [exact Hen|]. cbn [app WebServer.steps].
    destruct (activation_outcome w s Hen) as (Hon & Hup).
    pose proof (Hup Hact) as Hok.
    destruct (WebServer.process w s) as [[s' evs] r]. cbn [fst snd] in *.
    subst r. now rewrite Hon.
  - cbn [app WebServer.steps].
    destruct (activation_outcome w' s Hen) as (Hon & _).
    pose proof (server_failed_call w' s Hen Hcalm) as Hok.
    destruct (WebServer.process w' s) as [[s' evs] r]. cbn [fst snd] in *.
    subst r. apply IH. now rewrite Hon.
Qed.

Lemma server_activation_retried_witness :
  WebServer._enabled
    (WebServer.steps
       ([Scenario.web_world (Raise OSError)] ++ [Scenario.web_world (Ok tt)])
       WebServer.initial) = true.
Proof.
  assert (Hall : Forall (fun w' => WebServer.activates w' = false /\ calm w' = true)
                   [Scenario.web_world (Raise OSError)]).
  { repeat constructor. }
  exact (proj2 (server_activation_retried _ (Scenario.web_world (Ok tt))
                  WebServer.initial eq_refl Hall eq_refl)).
Defined.

(** X21: once the server is up, a call of [process] polls it once and
    changes no global; a poll that raises an Exception is swallowed and
    does not disable the server, so the server stays enabled over any
    number of calls. *)
Theorem server_stays_up (ws : list WebServer.World) (s : WebServer.State)
    (srv : WebServer.Server) :
  WebServer._enabled s = true ->
  WebServer._http_server s = Some srv ->
  WebServer.steps ws s = s /\
  forall w,
    fst (WebServer.process w s) = (s, [WebServer.Poll]) /\
    (interrupted (WebServer.server_poll w) = false ->
     snd (WebServer.process w s) = Ok tt).
Proof.
  intros Hen Hsrv.
  assert (Hcall : forall w,
            fst (WebServer.process w s) = (s, [WebServer.Poll]) /\
            (interrupted (WebServer.server_poll w) = false ->
             snd (WebServer.process w s) = Ok tt)).
  { intros w. unfold WebServer.process. rewrite Hen, Hsrv. cbn [negb].
    destruct (WebServer.server_poll w) as [[]|e]; [now split|].
    split; [reflexivity|]. cbn. now destruct (is_Exception e). }
  split; [|exact Hcall].
  induction ws as [|w ws IH]; [reflexivity|].
  cbn [WebServer.steps]. destruct (Hcall w) as [Hfst _].
  destruct (WebServer.process w s) as [[s' evs] r]. cbn [fst] in Hfst.
  injection Hfst as -> _. now destruct r.
Qed.

Lemma server_stays_up_witness :
  WebServer.steps [Scenario.web_world (Ok tt); Scenario.web_world (Ok tt)]
    (WebServer.steps [Scenario.web_world (Ok tt)] WebServer.initial)
  = WebServer.steps [Scenario.web_world (Ok tt)] WebServer.initial.
Proof.
  exact (proj1 (server_stays_up _ (WebServer.steps [Scenario.web_world (Ok tt)]
                                     WebServer.initial)
                  {| WebServer.server_pool := {| WebServer.pool_id := 1 |};
                     WebServer.root_path := "/" |} eq_refl eq_refl)).
Defined.

(** ** The scheduler loop: composition *)

(** Running the loop over two stretches of iterations is running it
    over the first and, if the loop is still going, over the second from
    where the first ended; after a break or an escaped exception nothing
    more runs. *)
Lemma loop_app (a b : list Tick) (s : Main.State) :
  loop (a ++ b) s
  = match loop a s with
    | (evs, Running s') => let (evs', st) := loop b s' in (evs ++ evs', st)
    | stopped => stopped
    end.
Proof.
  revert s. induction a as [|t a IH]; intros s.
  - cbn [app loop]. now destruct (loop b s).
  - cbn [app loop]. destruct (iteration t s) as [evs [s1| |e]]; try reflexivity.
    rewrite IH. destruct (loop a s1) as [evs1 [s2| |e]]; try reflexivity.
    destruct (loop b s2) as [evs2 st]. now rewrite app_assoc.
Qed.

(** ** _init: the transport it constructs *)

Lemma keeps_bind_lift (I : RS485.State -> Prop) {A B} (r : result A)
    (k : A -> M B) :
  (forall a, r = Ok a -> keeps I (k a)) -> keeps I (bind (lift r) k).
Proof.
  intros Hk m Hm. unfold bind, lift. destruct r as [a|e]; [|exact Hm].
  now apply Hk.
Qed.

Lemma constructed_block (w : World) (baud : Z) :
  baud = baud_of (env w) -> serial_ctor w = Ok tt ->
  keeps (constructed w)
    (bind (assign (set_serial (Some {| baudrate := baud |})))
       (fun _ => assign (set_next_poll (RS485.monotonic w)))).
Proof. intros Hb Hc m _. unfold constructed. cbn. now repeat split. Qed.

Lemma baud_chosen (e : Env) (b : Z) :
  match RS485_SENSOR_BAUD e with
  | Unset => convert (MODBUS_RTU_BAUDRATE e) 9600
  | other => convert other 9600
  end = Ok b ->
  b = baud_of e.
Proof.
  unfold baud_of.
  destruct (RS485_SENSOR_BAUD e), (MODBUS_RTU_BAUDRATE e); cbn;
    intros H; now inversion H.
Qed.

Ltac constructed_step :=
  lazymatch goal with
  | Hb : _ = Ok ?b, Hc : serial_ctor _ = Ok _
    |- keeps _ (bind (assign (set_serial (Some {| baudrate := ?b |}))) _) =>
      apply constructed_block; [now apply baud_chosen | now destruct Hc]
  | |- keeps _ (bind (lift ?r) _) =>
      let a := fresh "a" in let Ha := fresh "Ha" in
      apply keeps_bind_lift; intros a Ha; try (destruct a)
  | |- _ => keeps_step
  end.

(** X23: a transport that is there after [_init] ran without one is the
    one this call constructed: the constructor succeeded, it was given
    RS485_SENSOR_BAUD, or else MODBUS_RTU_BAUDRATE, or else 9600 as baud
    rate, the first poll is due at the time of the call, and the poller
    is enabled. *)
Theorem init_constructs_transport (w : World) (m : Machine) (ser : Serial) :
  _serial (globals m) = None ->
  _serial (globals (fst (_init w m))) = Some ser ->
  baudrate ser = baud_of (env w) /\
  serial_ctor w = Ok tt /\
  _next_poll (globals (fst (_init w m))) = RS485.monotonic w /\
  _enabled (globals (fst (_init w m))) = true.
Proof.
  intros Hnone Hsome.
  assert (Hk : keeps (constructed w) (_init w)).
  { unfold _init. cbv zeta. repeat constructed_step. }
  assert (Hstart : constructed w (globals m)).
  { unfold constructed. now rewrite Hnone. }
  specialize (Hk m Hstart). unfold constructed in Hk. rewrite Hsome in Hk.
  destruct Hk as (H1 & H2 & H3). repeat split; try assumption.
  rewrite init_enabled. unfold switched_on.
  destruct (is_not (MODBUS_MODE (env w)) "TCP") eqn:Hmode;
    [|destruct (_parse_bool (RS485_SENSOR_ENABLE (env w)) false) eqn:Hflag;
      [reflexivity|]];
    exfalso; revert Hsome; unfold _init; cbv zeta; rewrite ?Hmode, ?Hflag;
    cbn; rewrite Hnone; discriminate.
Qed.

Lemma init_constructs_transport_witness :
  baudrate {| baudrate := 9600 |} = baud_of (env (Sample.world 0 (Ok tt) (Ok [235]) (Ok [612]))).
Proof.
  assert (Hsome : _serial (globals (fst (_init (Sample.world 0 (Ok tt) (Ok [235]) (Ok [612]))
                                          {| globals := initial; trace := [] |})))
                  = Some {| baudrate := 9600 |}) by (vm_compute; reflexivity).
  exact (proj1 (init_constructs_transport
                  (Sample.world 0 (Ok tt) (Ok [235]) (Ok [612]))
                  {| globals := initial; trace := [] |} _ eq_refl Hsome)).
Defined.

(** ** get_status: what it reports after any run of process *)

Lemma coherent_readings (s s' : RS485.State) :
  readings s' = readings s -> coherent s -> coherent s'.
Proof.
  unfold readings, coherent.
  intros [= -> -> -> -> _ -> -> ->]. exact (fun H => H).
Qed.

Lemma step_coherent (w : World) (s : RS485.State) :
  coherent s -> coherent (step w s).
Proof.
  intros Hs. destruct (_enabled s) eqn:Hen.
  - destruct (due w s) eqn:Hdue;
      [|now rewrite (proj1 (step_idle w s Hen Hdue))].
    rewrite step_closed_form by assumption. cbv zeta.
    destruct Hs as (H1 & H2 & H3).
    destruct (interrupted (primary_reading w s));
      [exact (conj H1 (conj H2 H3))|].
    destruct (_hum_enable s && negb (interrupted (humidity_reading w s)));
      destruct (primary_reading w s) as [rv|e];
      try destruct (humidity_reading w s) as [hv|e'];
      unfold coherent, store_primary, store_humidity;
      cbn -[PrimFloat.of_uint63];
      (split; [|split]);
      first [ exact H1 | exact H2 | exact H3
            | discriminate
            | intros _; split; eexists; reflexivity
            | intros Hx; discriminate Hx ].
  - exact (coherent_readings _ _ (readings_when_disabled w s Hen) Hs).
Qed.

Lemma steps_coherent (ws : list World) (s : RS485.State) :
  coherent s -> coherent (steps ws s).
Proof.
  revert s. induction ws as [|w ws IH]; intros s Hs; [exact Hs|].
  cbn [steps]. destruct (outcome w s); [apply IH|]; now apply step_coherent.
Qed.

(** X24: after any run of [process] from the globals of the module,
    the status that [get_status] returns is coherent: when it says ok it
    carries a value and a raw reading, for the temperature and for the
    humidity, and while it carries no temperature it carries no time of
    update. *)
Theorem status_ok_carries_value (ws : list World) (d : value) :
  get_status (steps ws initial) = Ok d ->
  (get "ok" d = Some (VBool true) ->
   exists v raw,
     get "value_c" d = Some (VFloat v) /\ get "raw" d = Some (VInt raw)) /\
  (get_path ["humidity"; "ok"] d = Some (VBool true) ->
   exists v raw,
     get_path ["humidity"; "value_pct"] d = Some (VFloat v) /\
     get_path ["humidity"; "raw"] d = Some (VInt raw)) /\
  (get "value_c" d = Some VNone -> get "last_update_s" d = Some VNone).
Proof.
  assert (Hc : coherent (steps ws initial)).
  { apply steps_coherent. unfold coherent. cbn.
    repeat split; intros; discriminate || reflexivity. }
  generalize dependent (steps ws initial). intros s (H1 & H2 & H3).
  unfold get_status.
  destruct (float_truthy (_last_ts s)) eqn:Hts.
  - destruct (int_of_float (_last_ts s)) as [n|e]; [|discriminate].
    cbn [rbind]. intros [= <-]. cbn.
    split; [|split].
    + intros [= Hok]. destruct (H1 Hok) as [[v ->] [raw ->]]. now exists v, raw.
    + intros [= Hok]. destruct (H2 Hok) as [[v ->] [raw ->]]. now exists v, raw.
    + intros Hv. destruct (_last_value s) as [v|]; [discriminate Hv|].
      rewrite H3 in Hts by reflexivity. discriminate Hts.
  - cbn [rbind]. intros [= <-]. cbn.
    split; [|split].
    + intros [= Hok]. destruct (H1 Hok) as [[v ->] [raw ->]]. now exists v, raw.
    + intros [= Hok]. destruct (H2 Hok) as [[v ->] [raw ->]]. now exists v, raw.
    + reflexivity.
Qed.

Lemma status_ok_carries_value_witness :
  exists d,
    get_status (steps [Sample.world 0 (Ok tt) (Ok [235]) (Ok [612]);
                       Sample.world 1 (Ok tt) (Ok [235]) (Ok [612])] initial)
    = Ok d /\
    (get "ok" d = Some (VBool true) ->
     exists v raw,
       get "value_c" d = Some (VFloat v) /\ get "raw" d = Some (VInt raw)).
Proof.
  destruct (get_status
              (steps [Sample.world 0 (Ok tt) (Ok [235]) (Ok [612]);
                      Sample.world 1 (Ok tt) (Ok [235]) (Ok [612])] initial))
    as [d|e] eqn:H; [|vm_compute in H; discriminate H].
  exists d. split; [reflexivity|].
  exact (proj1 (status_ok_carries_value _ d H)).
Defined.
